(** * The personal website: content normalisation and the scrapbook gate

    A shallow embedding of [app.py]: the date utility, the content loader,
    the travel / blog / portfolio normalisers and the session gate of the
    scrapbook page, with the properties the specification states about them.

    Python values are modelled as follows.
    - A [str] is the list of its Unicode code points ([pystr]); [len] is
      [length] and [==] is equality of lists.
    - A value read from JSON is a [json]; an object is a finite map from
      keys to values.
    - A call that can raise returns a [result]: [Ok v] or [Raise e]. *)

From Stdlib Require Import ZArith List String Ascii Lia Bool PrimFloat.
From stdpp Require Import gmap list sorting.

Set Warnings "-register-all".
Local Open Scope Z_scope.

(** ** Strings *)

Abbreviation pystr := (list Z).

(** The code points of an ASCII literal. *)
Definition py (s : string) : pystr :=
  map (fun a => Z.of_N (N_of_ascii a)) (list_ascii_of_string s).

(** ** Exceptions and results *)

Inductive exn :=
| FileNotFoundError
| PermissionError
| IsADirectoryError
| UnicodeDecodeError
| JSONDecodeError
| ValueError
| TypeError
| AttributeError.

Inductive result (A : Type) :=
| Ok (a : A)
| Raise (e : exn).
Arguments Ok {A} a.
Arguments Raise {A} e.

(** Sequencing: an exception skips the rest.  With these instances stdpp's
    [x ← r; k] reads as the statements [x = r] followed by [k]. *)
#[global] Instance result_bind : MBind result := fun A B k r =>
  match r with
  | Ok a => k a
  | Raise e => Raise e
  end.
#[global] Instance result_ret : MRet result := fun A a => Ok a.

Definition is_ok {A} (r : result A) : bool :=
  match r with Ok _ => true | Raise _ => false end.

(** [for x in xs: out.append(f(x))]: the first exception ends the loop. *)
Fixpoint for_each {A B} (f : A -> result B) (xs : list A) : result (list B) :=
  match xs with
  | [] => Ok []
  | x :: xs' => y ← f x; ys ← for_each f xs'; Ok (y :: ys)
  end.

(** ** JSON values *)

Inductive json :=
| JNull
| JBool (b : bool)
| JInt (n : Z)
| JFloat (f : float)
| JStr (s : pystr)
| JList (l : list json)
| JDict (d : gmap pystr json).

(** Python's truth value of a JSON value ([x or y], [if not x], [bool(x)]). *)
Definition truthy (v : json) : bool :=
  match v with
  | JNull => false
  | JBool b => b
  | JInt n => negb (n =? 0)
  | JFloat f => negb (PrimFloat.eqb f 0%float)
  | JStr s => match s with [] => false | _ => true end
  | JList l => match l with [] => false | _ => true end
  | JDict d => negb (bool_decide (d = ∅))
  end.

(** [a or b] *)
Definition py_or (a b : json) : json := if truthy a then a else b.

(** [d.get(key, default)]; only a dict has the method. *)
Definition dict_get (v : json) (key : pystr) (default : json) : result json :=
  match v with
  | JDict d => Ok (match d !! key with Some x => x | None => default end)
  | _ => Raise AttributeError
  end.

(** * The access gate *)

Module Gate.

Inductive http_method := GET | POST.

Inductive url :=
| UrlFor (endpoint : pystr) (next : option pystr)
| Literal (u : pystr).

Inductive response :=
| Redirect (target : url) (code : Z)
| Render (template : pystr) (page_title : pystr).

Record request := {
  method : http_method;
  path : pystr;
  form : gmap pystr pystr
}.

(** What a view can change for one client: the session cookie and the
    queue of flashed messages, as (category, message). *)
Record client := {
  session : gmap pystr json;
  flashed : list (pystr * pystr)
}.

Definition scrapbook_authed := py "scrapbook_authed".

(** [session.get(key)] *)
Definition session_get (s : gmap pystr json) (key : pystr) : json :=
  match s !! key with Some v => v | None => JNull end.

(** [form.get(key, default)] and [os.getenv(key, default)] *)
Definition get_or (m : gmap pystr pystr) (key default : pystr) : pystr :=
  match m !! key with Some v => v | None => default end.

Definition str_truthy (s : pystr) : bool :=
  match s with [] => false | _ => true end.

Definition str_eqb (a b : pystr) : bool := bool_decide (a = b).

Definition authed (c : client) : bool :=
  truthy (session_get (session c) scrapbook_authed).

Inductive gate_state := Anonymous | Authorized.

Definition state (c : client) : gate_state :=
  if authed c then Authorized else Anonymous.

Definition flash (message category : pystr) (c : client) : client :=
  {| session := session c; flashed := flashed c ++ [(category, message)] |}.

Definition login (environ : gmap pystr pystr) (req : request) (c : client)
  : client * response :=
  if authed c then
    (c, Redirect (UrlFor (py "scrapbook") None) 303)
  else
    match method req with
    | POST =>
        let password := get_or (form req) (py "password") [] in
        let expected := get_or environ (py "SCRAPBOOK_PASSWORD") [] in
        if str_truthy expected && str_eqb password expected then
          let c' := {| session := <[scrapbook_authed := JBool true]> (session c);
                       flashed := flashed c |} in
          let next_url :=
            match form req !! py "next" with
            | Some ((_ :: _) as u) => Literal u
            | _ => UrlFor (py "scrapbook") None
            end in
          (c', Redirect next_url 303)
        else
          (flash (py "Incorrect password.") (py "danger") c,
           Render (py "login.html") (py "Login"))
    | GET => (c, Render (py "login.html") (py "Login"))
    end.

Definition logout (c : client) : client * response :=
  ({| session := delete scrapbook_authed (session c); flashed := flashed c |},
   Redirect (UrlFor (py "home") None) 302).

(** The decorator: [view] runs only for an authorised session. *)
Definition login_required (view : request -> client -> client * response)
    (req : request) (c : client) : client * response :=
  if authed c then view req c
  else (c, Redirect (UrlFor (py "login") (Some (path req))) 302).


End Gate.

(** * What the interpreter's Unicode tables supply

    Some library behaviours depend on tables of the Unicode database that
    grow from one interpreter release to the next, or on the steps of the
    library's sort.  They are taken as given; every result below holds for
    whatever they are.  On ASCII the functions that use the tables are
    defined outright. *)

Class Runtime := {
  (** The decimal value of a code point above ASCII, when it is a digit
      (category Nd): what the regular expression class [\d] and [int()]
      consult. *)
  unicode_decimal : Z -> option Z;
  (** [s.lower()] of a string with a code point above ASCII. *)
  unicode_lower : pystr -> pystr;
  (** [str(v)] of a value that is not a string. *)
  repr : json -> pystr;
  (** [l.sort(key=..., reverse=True)] on keys that are arbitrary JSON
      values, given as the list of (key, record).  Python orders only some
      pairs of such values; which pairs the sort compares, and so whether
      it raises [TypeError], is the library's business. *)
  sort_reverse_by_json : forall A : Type, list (json * A) -> result (list A)
}.

(** * Python's string methods *)

(** [str.isspace] of one code point: the characters that [split()] and
    [strip()] treat as whitespace. *)
Definition isspace (c : Z) : bool :=
  (9 <=? c) && (c <=? 13) || (28 <=? c) && (c <=? 32)
  || (c =? 133) || (c =? 160) || (c =? 5760)
  || (8192 <=? c) && (c <=? 8202)
  || (c =? 8232) || (c =? 8233) || (c =? 8239) || (c =? 8287) || (c =? 12288).

Fixpoint lstrip (s : pystr) : pystr :=
  match s with
  | c :: s' => if isspace c then lstrip s' else s
  | [] => []
  end.

Definition rstrip (s : pystr) : pystr := rev (lstrip (rev s)).

(** [s.strip()] *)
Definition strip (s : pystr) : pystr := rstrip (lstrip s).

Fixpoint starts_with (prefix s : pystr) : bool :=
  match prefix, s with
  | [], _ => true
  | p :: prefix', c :: s' => (p =? c) && starts_with prefix' s'
  | _ :: _, [] => false
  end.

(** [s.replace(old, new)] scans from the left and replaces each occurrence
    that does not overlap the previous one; [skip] counts the characters of
    an occurrence still to pass over. *)
Fixpoint replace_from (old new : pystr) (skip : nat) (s : pystr) : pystr :=
  match s with
  | [] => []
  | c :: s' =>
      match skip with
      | S k => replace_from old new k s'
      | O =>
          if starts_with old s
          then new ++ replace_from old new (length old - 1) s'
          else c :: replace_from old new 0 s'
      end
  end.

Definition replace (old new s : pystr) : pystr :=
  match old with
  | [] => new ++ flat_map (fun c => c :: new) s
  | _ :: _ => replace_from old new 0 s
  end.

(** [s.split(sep, maxsplit)] for a non-empty [sep]: [budget] splits remain,
    [word] is the part read so far. *)
Fixpoint split_from (sep : pystr) (budget skip : nat) (word s : pystr)
  : list pystr :=
  match s with
  | [] => [word]
  | c :: s' =>
      match skip with
      | S k => split_from sep budget k word s'
      | O =>
          match budget with
          | S budget' =>
              if starts_with sep s
              then word :: split_from sep budget' (length sep - 1) [] s'
              else split_from sep budget 0 (word ++ [c]) s'
          | O => split_from sep budget 0 (word ++ [c]) s'
          end
      end
  end.

Definition split (sep : pystr) (maxsplit : nat) (s : pystr) : list pystr :=
  split_from sep maxsplit 0 [] s.

(** [s.rsplit(sep, maxsplit)] is [split] read from the right. *)
Definition rsplit (sep : pystr) (maxsplit : nat) (s : pystr) : list pystr :=
  rev (map (@rev Z) (split (rev sep) maxsplit (rev s))).

(** [parts[-1]] of a list that [split] returned (never empty). *)
Definition last_part (parts : list pystr) : pystr := List.last parts [].

(** [s.split()]: the maximal runs of non-whitespace, in order. *)
Fixpoint split_ws_from (word s : pystr) : list pystr :=
  match s with
  | [] => match word with [] => [] | _ => [word] end
  | c :: s' =>
      if isspace c
      then match word with
           | [] => split_ws_from [] s'
           | _ => word :: split_ws_from [] s'
           end
      else split_ws_from (word ++ [c]) s'
  end.

Definition split_ws (s : pystr) : list pystr := split_ws_from [] s.

(** [sep.join(parts)] *)
Fixpoint join (sep : pystr) (parts : list pystr) : pystr :=
  match parts with
  | [] => []
  | [p] => p
  | p :: parts' => p ++ sep ++ join sep parts'
  end.

(** [s[:stop]]: a negative [stop] counts from the end. *)
Definition slice_to (s : pystr) (stop : Z) : pystr :=
  let n := Z.of_nat (length s) in
  let stop' := if stop <? 0 then Z.max 0 (stop + n) else Z.min stop n in
  take (Z.to_nat stop') s.

Definition is_ascii (c : Z) : bool := c <? 128.

Definition ascii_lower (c : Z) : Z :=
  if (65 <=? c) && (c <=? 90) then c + 32 else c.

(** [s.lower()] *)
Definition lower `{Runtime} (s : pystr) : pystr :=
  if forallb is_ascii s then map ascii_lower s else unicode_lower s.

(** [str(v)] *)
Definition py_str `{Runtime} (v : json) : pystr :=
  match v with
  | JStr s => s
  | _ => repr v
  end.

(** A string method called on a value: only a [str] has it. *)
Definition as_str (v : json) : result pystr :=
  match v with
  | JStr s => Ok s
  | _ => Raise AttributeError
  end.

(** * The content loader *)

(** What reading a file as UTF-8 text and parsing it as JSON comes to. *)
Inductive file_content :=
| UndecodableBytes
| InvalidJson
| Document (v : json).

Inductive fs_node :=
| Directory
| Unreadable (c : file_content)
| RegularFile (c : file_content).

(** The files by path; a path with no entry does not exist. *)
Abbreviation filesystem := (gmap pystr fs_node).

(** [path.open("r", encoding="utf-8")] *)
Definition path_open (fs : filesystem) (path : pystr) : result file_content :=
  match fs !! path with
  | None => Raise FileNotFoundError
  | Some Directory => Raise IsADirectoryError
  | Some (Unreadable _) => Raise PermissionError
  | Some (RegularFile c) => Ok c
  end.

(** [json.load(f)] *)
Definition json_load (f : file_content) : result json :=
  match f with
  | UndecodableBytes => Raise UnicodeDecodeError
  | InvalidJson => Raise JSONDecodeError
  | Document v => Ok v
  end.

(** [try: body  except classes: return handler] *)
Definition try_except {A} (body : result A) (classes : exn -> bool)
    (handler : A) : result A :=
  match body with
  | Ok a => Ok a
  | Raise e => if classes e then Ok handler else Raise e
  end.

Definition load_json (fs : filesystem) (path : pystr) (default : json)
  : result json :=
  try_except
    (f ← path_open fs path; json_load f)
    (fun e => match e with
              | FileNotFoundError | JSONDecodeError => true
              | _ => false
              end)
    default.

(** * The date utility *)

(** ** The calendar of [datetime] *)

Record date := mkdate { year : Z; month : Z; day : Z }.

Definition MINYEAR := 1.
Definition MAXYEAR := 9999.

Definition _is_leap (y : Z) : bool :=
  (y mod 4 =? 0) && (negb (y mod 100 =? 0) || (y mod 400 =? 0)).

Definition _days_before_year (y : Z) : Z :=
  let y := y - 1 in y * 365 + y / 4 - y / 100 + y / 400.

Definition _DAYS_IN_MONTH : list Z :=
  [-1; 31; 28; 31; 30; 31; 30; 31; 31; 30; 31; 30; 31].

Definition _DAYS_BEFORE_MONTH : list Z :=
  [-1; 0; 31; 59; 90; 120; 151; 181; 212; 243; 273; 304; 334].

Definition _days_in_month (y m : Z) : Z :=
  if (m =? 2) && _is_leap y then 29
  else nth (Z.to_nat m) _DAYS_IN_MONTH 0.

Definition _days_before_month (y m : Z) : Z :=
  nth (Z.to_nat m) _DAYS_BEFORE_MONTH 0
  + (if (2 <? m) && _is_leap y then 1 else 0).

Definition _ymd2ord (y m d : Z) : Z :=
  _days_before_year y + _days_before_month y m + d.

(** [date(year, month, day)] *)
Definition _check_date_fields (y m d : Z) : result date :=
  if negb ((MINYEAR <=? y) && (y <=? MAXYEAR)) then Raise ValueError
  else if negb ((1 <=? m) && (m <=? 12)) then Raise ValueError
  else if negb ((1 <=? d) && (d <=? _days_in_month y m)) then Raise ValueError
  else Ok (mkdate y m d).

Definition toordinal (dt : date) : Z :=
  _ymd2ord (year dt) (month dt) (day dt).

(** [a <= b]: dates compare as the tuples (year, month, day). *)
Definition date_leb (a b : date) : bool :=
  (year a <? year b)
  || (year a =? year b)
     && ((month a <? month b)
         || (month a =? month b) && (day a <=? day b)).

(** [datetime.min].  No value the program builds carries a time of day
    other than midnight, so a datetime is modelled by its date. *)
Definition datetime_min : date := mkdate 1 1 1.

(** ** [strptime] with the format [%Y-%m-%d] *)

Definition decimal_value `{Runtime} (c : Z) : option Z :=
  if (48 <=? c) && (c <=? 57) then Some (c - 48)
  else if is_ascii c then None
  else unicode_decimal c.

(** One position of a pattern. *)
Inductive cls :=
| AnyDigit                (* \d *)
| InRange (lo hi : Z)     (* [lo-hi] *)
| Exactly (c : Z).

Definition cls_match `{Runtime} (k : cls) (c : Z) : bool :=
  match k with
  | AnyDigit => match decimal_value c with Some _ => true | None => false end
  | InRange lo hi => (lo <=? c) && (c <=? hi)
  | Exactly x => c =? x
  end.

(** One alternative of a group: the text it matches at the head of [s],
    and what follows. *)
Fixpoint alt_match `{Runtime} (a : list cls) (s : pystr)
  : option (pystr * pystr) :=
  match a, s with
  | [], _ => Some ([], s)
  | k :: a', c :: s' =>
      if cls_match k c
      then match alt_match a' s' with
           | Some (text, rest) => Some (c :: text, rest)
           | None => None
           end
      else None
  | _ :: _, [] => None
  end.

Fixpoint first_alt {A} (f : list cls -> option A) (alts : list (list cls))
  : option A :=
  match alts with
  | [] => None
  | a :: alts' => match f a with Some x => Some x | None => first_alt f alts' end
  end.

(** A pattern is a sequence of groups, a group a list of alternatives.
    Matching backtracks as [re.match] does: an alternative is kept only when
    the rest of the pattern matches behind it, and the first that is kept
    wins.  The result is the text of each group and the part of the string
    left unmatched. *)
Fixpoint re_match `{Runtime} (groups : list (list (list cls))) (s : pystr)
  : option (list pystr * pystr) :=
  match groups with
  | [] => Some ([], s)
  | g :: groups' =>
      first_alt
        (fun a =>
           match alt_match a s with
           | Some (text, rest) =>
               match re_match groups' rest with
               | Some (texts, unmatched) => Some (text :: texts, unmatched)
               | None => None
               end
           | None => None
           end)
        g
  end.

Definition c0 := 48.
Definition c1 := 49.
Definition c2 := 50.
Definition c3 := 51.
Definition c9 := 57.
Definition hyphen := 45.
Definition space := 32.

(** [(?P<Y>\d\d\d\d)] *)
Definition re_Y : list (list cls) := [[AnyDigit; AnyDigit; AnyDigit; AnyDigit]].

(** [(?P<m>1[0-2]|0[1-9]|[1-9])] *)
Definition re_m : list (list cls) :=
  [[Exactly c1; InRange c0 c2]; [Exactly c0; InRange c1 c9]; [InRange c1 c9]].

(** [(?P<d>3[0-1]|[1-2]\d|0[1-9]|[1-9]| [1-9])] *)
Definition re_d : list (list cls) :=
  [[Exactly c3; InRange c0 c1]; [InRange c1 c2; AnyDigit];
   [Exactly c0; InRange c1 c9]; [InRange c1 c9]; [Exactly space; InRange c1 c9]].

Definition re_hyphen : list (list cls) := [[Exactly hyphen]].

Definition format_regex : list (list (list cls)) :=
  [re_Y; re_hyphen; re_m; re_hyphen; re_d].

Fixpoint digits_value `{Runtime} (acc : Z) (s : pystr) : result Z :=
  match s with
  | [] => Ok acc
  | c :: s' =>
      match decimal_value c with
      | Some v => digits_value (10 * acc + v) s'
      | None => Raise ValueError
      end
  end.

(** [int(text)] on the text of a group: digits, with whitespace around them
    ignored.  (No group can hold a sign or an underscore.) *)
Definition py_int `{Runtime} (text : pystr) : result Z :=
  match strip text with
  | [] => Raise ValueError
  | t => digits_value 0 t
  end.

(** [datetime.strptime(s, "%Y-%m-%d")]: the pattern has to match, and to
    match all of [s]; the three numbers have to form a date. *)
Definition strptime `{Runtime} (s : pystr) : result date :=
  match re_match format_regex s with
  | Some ([Y; _; m; _; d], []) =>
      y ← py_int Y;
      m ← py_int m;
      d ← py_int d;
      _check_date_fields y m d
  | _ => Raise ValueError
  end.

(** [try: return body  except Exception: return default]: every exception
    is caught, so the function that ends this way always returns. *)
Definition or_else {A} (body : result A) (default : A) : A :=
  match body with
  | Ok a => a
  | Raise _ => default
  end.

Definition parse_date_ymd `{Runtime} (s : pystr) : date :=
  or_else (strptime s) datetime_min.

Definition days_between `{Runtime} (start_ymd end_ymd : pystr) : Z :=
  or_else
    (s ← strptime start_ymd;
     e ← strptime end_ymd;
     Ok (if date_leb s e then toordinal e - toordinal s + 1 else 0))
    0.

(** * Sorting

    [l.sort(key=..., reverse=True)] on keys that are totally ordered: the
    result is the one stable arrangement in descending order of key (records
    with equal keys keep their order), whatever algorithm produces it.
    Insertion from the right builds that arrangement. *)

Fixpoint insert_reverse {A K} (leb : K -> K -> bool) (key : A -> K)
    (x : A) (l : list A) : list A :=
  match l with
  | [] => [x]
  | y :: l' =>
      if leb (key y) (key x) then x :: l
      else y :: insert_reverse leb key x l'
  end.

Fixpoint sort_reverse {A K} (leb : K -> K -> bool) (key : A -> K)
    (l : list A) : list A :=
  match l with
  | [] => []
  | x :: l' => insert_reverse leb key x (sort_reverse leb key l')
  end.

(** * The travel normaliser *)

Record travel_stop := {
  stop_id : pystr;
  stop_place : pystr;
  stop_country : pystr;
  stop_lat : json;
  stop_lng : json;
  stop_start_date : pystr;
  stop_end_date : pystr;
  stop_days : Z;
  stop_type : pystr;
  stop_notes_md : json
}.

(** [(v or default).strip()] *)
Definition or_strip (v : json) (default : pystr) : result pystr :=
  s ← as_str (py_or v (JStr default)); Ok (strip s).

(** The body of the loop of [load_travel_stops]: one raw record. *)
Definition normalize_stop `{Runtime} (st : json) : result travel_stop :=
  v ← dict_get st (py "start_date") (JStr []);
  let start := py_str v in
  v ← dict_get st (py "end_date") (JStr []);
  let end_ := py_str v in
  v ← dict_get st (py "id") JNull;
  raw_id ← or_strip v [];
  v ← dict_get st (py "place") JNull;
  place ← or_strip v [];
  let fallback_id :=
    replace [space] [hyphen] (lower place) ++ [hyphen] ++ start in
  let stop_id := match raw_id with [] => fallback_id | _ => raw_id end in
  v ← dict_get st (py "country") JNull;
  country ← or_strip v [];
  lat ← dict_get st (py "lat") JNull;
  lng ← dict_get st (py "lng") JNull;
  let days := days_between start end_ in
  v ← dict_get st (py "type") JNull;
  type ← or_strip v (py "visited");
  v ← dict_get st (py "notes_md") JNull;
  Ok {| stop_id := stop_id;
        stop_place := place;
        stop_country := country;
        stop_lat := lat;
        stop_lng := lng;
        stop_start_date := start;
        stop_end_date := end_;
        stop_days := days;
        stop_type := type;
        stop_notes_md := py_or v (JStr []) |}.

(** The loop and the sort of [load_travel_stops], on the records read. *)
Definition normalize_stops `{Runtime} (stops : list json)
  : result (list travel_stop) :=
  normalized ← for_each normalize_stop stops;
  Ok (sort_reverse date_leb (fun x => parse_date_ymd (stop_start_date x))
        normalized).

(** [for x in v]: what iterating over a JSON value yields. *)
Definition py_iter (v : json) : result (list json) :=
  match v with
  | JList l => Ok l
  | JDict d => Ok (map (fun kv => JStr (fst kv)) (map_to_list d))
  | JStr s => Ok (map (fun c => JStr [c]) s)
  | _ => Raise TypeError
  end.

(** [content_dir] is the [content] directory next to the program. *)
Definition load_travel_stops `{Runtime} (fs : filesystem) (content_dir : pystr)
  : result (list travel_stop) :=
  let path := content_dir ++ py "/travel/stops.json" in
  stops ← load_json fs path (JList []);
  stops ← py_iter stops;
  normalize_stops stops.

(** * The blog normaliser: slugs *)

Definition slugify (filename : pystr) : pystr :=
  let name := last_part (rsplit (py "/") 1 filename) in
  let stem := replace (py ".md") [] name in
  let parts := split [hyphen] 3 stem in
  if (4 <=? length parts)%nat then last_part parts else stem.

(** [meta.get("slug") or slugify(path.name)] in [load_blog_posts]. *)
Definition post_slug (meta : gmap pystr json) (name : pystr) : json :=
  py_or (match meta !! py "slug" with Some v => v | None => JNull end)
        (JStr (slugify name)).

(** * The portfolio normaliser *)

Definition ellipsis : Z := 8230.

(** [plain_excerpt] once [md_text] is known to be a non-empty string. *)
Definition excerpt_of (md_text : pystr) (max_len : Z) : pystr :=
  let text := join [space] (split_ws (replace [10] [space] md_text)) in
  if max_len <? Z.of_nat (length text)
  then slice_to text (max_len - 1) ++ [ellipsis]
  else text.

Definition plain_excerpt (md_text : json) (max_len : Z) : result pystr :=
  if negb (truthy md_text) then Ok []
  else s ← as_str md_text; Ok (excerpt_of s max_len).

Record portfolio_item := {
  item_type : pystr;
  item_title : pystr;
  item_slug : pystr;
  item_year : json;
  item_tags : json;
  item_cover_image : json;
  item_description_md : json;
  item_excerpt : pystr;
  item_images : json;
  item_video_url : json;
  item_credits : json
}.

(** [it.get(key, "").strip()] *)
Definition get_strip (it : json) (key : pystr) : result pystr :=
  v ← dict_get it key (JStr []); s ← as_str v; Ok (strip s).

(** The body of the loop of [load_portfolio_items]. *)
Definition normalize_item (it : json) : result portfolio_item :=
  type ← get_strip it (py "type");
  title ← get_strip it (py "title");
  slug ← get_strip it (py "slug");
  year ← dict_get it (py "year") JNull;
  tags ← dict_get it (py "tags") (JList []);
  cover_image ← dict_get it (py "cover_image") (JStr []);
  description_md ← dict_get it (py "description_md") (JStr []);
  v ← dict_get it (py "description_md") (JStr []);
  excerpt ← plain_excerpt v 120;
  images ← dict_get it (py "images") (JList []);
  video_url ← dict_get it (py "video_url") (JStr []);
  credits ← dict_get it (py "credits") (JList []);
  Ok {| item_type := type;
        item_title := title;
        item_slug := slug;
        item_year := year;
        item_tags := tags;
        item_cover_image := cover_image;
        item_description_md := description_md;
        item_excerpt := excerpt;
        item_images := images;
        item_video_url := video_url;
        item_credits := credits |}.

(** The loop and the sort of [load_portfolio_items], on the records read.
    The key of a record is [x["year"] or 0]. *)
Definition normalize_items `{Runtime} (items : list json)
  : result (list portfolio_item) :=
  normalized ← for_each normalize_item items;
  sort_reverse_by_json _
    (map (fun x => (py_or (item_year x) (JInt 0), x)) normalized).

Definition load_portfolio_items `{Runtime} (fs : filesystem)
    (content_dir : pystr) : result (list portfolio_item) :=
  let path := content_dir ++ py "/portfolio/items.json" in
  items ← load_json fs path (JList []);
  items ← py_iter items;
  normalize_items items.


(** * The specification's notions, for comparison with the code *)

(** Every maximal run of whitespace becomes one space. *)
Fixpoint squeeze_ws (s : pystr) : pystr :=
  match s with
  | [] => []
  | c :: s' =>
      if isspace c then
        match s' with
        | c' :: _ => if isspace c' then squeeze_ws s' else space :: squeeze_ws s'
        | [] => [space]
        end
      else c :: squeeze_ws s'
  end.

(** "Collapses all whitespace runs to single spaces and trims." *)
Definition collapse_ws (s : pystr) : pystr := strip (squeeze_ws s).

Definition ascii_digit (c : Z) : option Z :=
  if (48 <=? c) && (c <=? 57) then Some (c - 48) else None.

(** A strict YYYY-MM-DD: four digits, a hyphen, two digits, a hyphen, two
    digits, all ASCII, that name a day of the calendar. *)
Definition strict_ymd (s : pystr) : option date :=
  match s with
  | [y1; y2; y3; y4; h1; m1; m2; h2; d1; d2] =>
      y1 ← ascii_digit y1; y2 ← ascii_digit y2;
      y3 ← ascii_digit y3; y4 ← ascii_digit y4;
      m1 ← ascii_digit m1; m2 ← ascii_digit m2;
      d1 ← ascii_digit d1; d2 ← ascii_digit d2;
      if (h1 =? hyphen) && (h2 =? hyphen) then
        match _check_date_fields (1000 * y1 + 100 * y2 + 10 * y3 + y4)
                (10 * m1 + m2) (10 * d1 + d2) with
        | Ok dt => Some dt
        | Raise _ => None
        end
      else None
  | _ => None
  end.

(** A date that [date(year, month, day)] accepts. *)
Definition valid_date (dt : date) : Prop :=
  MINYEAR <= year dt <= MAXYEAR
  /\ 1 <= month dt <= 12
  /\ 1 <= day dt <= _days_in_month (year dt) (month dt).

(** The file name of a post without its [.md] extension. *)
Definition without_extension (name : pystr) : pystr :=
  let n := (length name - 3)%nat in
  if bool_decide (drop n name = py ".md") then take n name else name.

(** What follows the [n]-th hyphen, when there are that many. *)
Fixpoint after_hyphens (n : nat) (s : pystr) : option pystr :=
  match n with
  | O => Some s
  | S n' =>
      match s with
      | [] => None
      | c :: s' => if c =? hyphen then after_hyphens n' s' else after_hyphens n s'
      end
  end.

(** The slug of a stem: what follows the third hyphen when the stem has
    four segments or more, the stem itself otherwise. *)
Definition slug_of_stem (stem : pystr) : pystr :=
  match after_hyphens 3 stem with
  | Some t => t
  | None => stem
  end.

(** The slug the specification derives from a file name. *)
Definition derived_slug (name : pystr) : pystr :=
  slug_of_stem (without_extension name).

(** A list in descending order of key: every record's key is at least the
    key of each record after it. *)
Definition descending {A K} (leb : K -> K -> bool) (key : A -> K)
    (l : list A) : Prop :=
  StronglySorted (fun x y => leb (key y) (key x) = true) l.

(** Records whose keys the order cannot tell from [k]. *)
Definition same_key {A K} (leb : K -> K -> bool) (key : A -> K) (k : K)
    (x : A) : bool :=
  leb (key x) k && leb k (key x).

(** [st.get(key)] on an object. *)
Definition field (d : gmap pystr json) (key : pystr) : json :=
  match d !! key with Some x => x | None => JNull end.

(** A field that holds text when it holds anything: absent, or a value
    Python counts as false ([null], [""], ...), or a string. *)
Definition text_or_blank (d : gmap pystr json) (key : pystr) : bool :=
  match d !! key with
  | None => true
  | Some (JStr _) => true
  | Some v => negb (truthy v)
  end.

(** A raw travel stop: a JSON object whose [id], [place], [country] and
    [type] hold text when they hold anything. *)
Definition raw_stop (st : json) : bool :=
  match st with
  | JDict d =>
      text_or_blank d (py "id") && text_or_blank d (py "place")
      && text_or_blank d (py "country") && text_or_blank d (py "type")
  | _ => false
  end.

(** A field that is a string when present. *)
Definition text_if_present (d : gmap pystr json) (key : pystr) : bool :=
  match d !! key with
  | None | Some (JStr _) => true
  | Some _ => false
  end.

(** A raw portfolio item as the normaliser needs it: a JSON object whose
    [type], [title] and [slug] are strings when present. *)
Definition raw_item (it : json) : bool :=
  match it with
  | JDict d =>
      text_if_present d (py "type") && text_if_present d (py "title")
      && text_if_present d (py "slug")
  | _ => false
  end.

(** * Proof tables and a stand-in interpreter *)

Definition ascii_digits : list Z := [48; 49; 50; 51; 52; 53; 54; 55; 56; 57].

(** What is matched behind the year when the month and the day are written
    with two digits each and lie in 1..12 and 1..31. *)
Definition month_day_matched `{Runtime} (m1 m2 d1 d2 : Z) : bool :=
  let m := 10 * (m1 - 48) + (m2 - 48) in
  let d := 10 * (d1 - 48) + (d2 - 48) in
  implb ((1 <=? m) && (m <=? 12) && (1 <=? d) && (d <=? 31))
    (bool_decide
       (re_match [re_hyphen; re_m; re_hyphen; re_d]
          [hyphen; m1; m2; hyphen; d1; d2]
        = Some ([[hyphen]; [m1; m2]; [hyphen]; [d1; d2]], []))).

(** The key of a sort when it is an integer. *)
Definition int_key {A} (kv : json * A) : result (Z * A) :=
  match fst kv with
  | JInt n => Ok (n, snd kv)
  | JBool b => Ok (if b then 1 else 0, snd kv)
  | _ => Raise TypeError
  end.

(** A stand-in for the interpreter's tables, to run the model on concrete
    inputs: no digit and no letter above ASCII, an empty [str()] of values
    that are not strings, and a sort that knows integer keys only. *)
Definition plain_runtime : Runtime := {|
  unicode_decimal := fun _ => None;
  unicode_lower := fun s => s;
  repr := fun _ => [];
  sort_reverse_by_json := fun A l =>
    keyed ← for_each int_key l;
    Ok (map snd (sort_reverse Z.leb fst keyed))
|}.

(** * The rest of the program *)

(** ** File names *)

(** [a <= b] on strings: code point by code point. *)
Fixpoint str_leb (a b : pystr) : bool :=
  match a, b with
  | [], _ => true
  | _ :: _, [] => false
  | x :: a', y :: b' => (x <? y) || (x =? y) && str_leb a' b'
  end.

(** [s.rfind(c)]: the index of the last [c], or -1; [i] is the index of the
    head of [s] and [found] the last index seen so far. *)
Fixpoint rfind_from (c i found : Z) (s : pystr) : Z :=
  match s with
  | [] => found
  | x :: s' => rfind_from c (i + 1) (if x =? c then i else found) s'
  end.

Definition rfind (c : Z) (s : pystr) : Z := rfind_from c 0 (-1) s.

Definition dot := 46.

(** [path.stem]: the name without its last suffix. *)
Definition path_stem (name : pystr) : pystr :=
  let i := rfind dot name in
  if (0 <? i) && (i <? Z.of_nat (length name) - 1) then slice_to name i
  else name.

(** The names that [glob("*.md")] keeps. *)
Definition glob_md (name : pystr) : bool := starts_with (rev (py ".md")) (rev name).

(** ** The blog normaliser *)

(** What [frontmatter.load] reads from a file: the metadata of the front
    matter, with its values as JSON values, and the text below it. *)
Record document := {
  metadata : gmap pystr json;
  content : pystr
}.

Record blog_post := {
  bp_title : json;
  bp_date : pystr;
  bp_date_sort : date;
  bp_tags : json;
  bp_excerpt : json;
  bp_slug : json;
  bp_content_md : pystr
}.

(** [bool(meta.get("draft", False))] *)
Definition is_draft (post : document) : bool :=
  truthy (match metadata post !! py "draft" with Some v => v | None => JBool false end).

(** The record appended for a post that is not a draft. *)
Definition make_post `{Runtime} (name : pystr) (post : document) : blog_post :=
  let meta := metadata post in
  let title := py_or (field meta (py "title")) (JStr (path_stem name)) in
  let date_str := py_str (py_or (field meta (py "date")) (JStr [])) in
  let tags := py_or (field meta (py "tags")) (JList []) in
  let excerpt := py_or (field meta (py "excerpt")) (JStr []) in
  {| bp_title := title;
     bp_date := date_str;
     bp_date_sort := parse_date_ymd date_str;
     bp_tags := tags;
     bp_excerpt := excerpt;
     bp_slug := post_slug meta name;
     bp_content_md := content post |}.

(** The loop of [load_blog_posts] over the files in the order given; each
    file comes with what [frontmatter.load] makes of it, the document or
    the exception. *)
Fixpoint blog_loop `{Runtime} (files : list (pystr * result document))
  : result (list blog_post) :=
  match files with
  | [] => Ok []
  | (name, loaded) :: files' =>
      post ← loaded;
      if is_draft post then blog_loop files'
      else posts ← blog_loop files'; Ok (make_post name post :: posts)
  end.

(** [sorted(blog_dir.glob("*.md"), reverse=True)]: paths of one directory
    compare by name. *)
Definition sorted_md_files (dir : gmap pystr (result document))
  : list (pystr * result document) :=
  sort_reverse str_leb fst
    (List.filter (fun entry => glob_md (fst entry)) (map_to_list dir)).

(** [blog_dir] is [None] when there is no such directory, and else the
    directory's entries by name. *)
Definition load_blog_posts `{Runtime}
    (blog_dir : option (gmap pystr (result document)))
  : result (list blog_post) :=
  match blog_dir with
  | None => Ok []
  | Some dir =>
      posts ← blog_loop (sorted_md_files dir);
      Ok (sort_reverse date_leb bp_date_sort posts)
  end.

(** [p["slug"] == slug]: a slug that is not a string equals no string. *)
Definition has_slug (slug : pystr) (p : blog_post) : bool :=
  match bp_slug p with
  | JStr s => Gate.str_eqb s slug
  | _ => false
  end.

(** The view [blog_post]: the post to show, or [None] for the 404 page. *)
Definition blog_post_view `{Runtime}
    (blog_dir : option (gmap pystr (result document))) (slug : pystr)
  : result (option blog_post) :=
  posts ← load_blog_posts blog_dir;
  Ok (List.find (has_slug slug) posts).

(** ** The scrapbook page *)

(** [parse_date_ymd] on any value: [strptime] raises [TypeError] on what is
    not a string, and the handler catches it like every other exception. *)
Definition parse_date_ymd_value `{Runtime} (v : json) : date :=
  or_else (match v with
           | JStr s => strptime s
           | _ => Raise TypeError
           end) datetime_min.

(** The sort key of an entry: [parse_date_ymd(e.get("date", ""))]. *)
Definition entry_key `{Runtime} (e : json) : result date :=
  v ← dict_get e (py "date") (JStr []);
  Ok (parse_date_ymd_value v).

(** [sorted(l, key=key, reverse=True)]: the keys are computed first, in the
    order of the list. *)
Definition sorted_reverse {A K} (leb : K -> K -> bool) (key : A -> result K)
    (l : list A) : result (list A) :=
  keyed ← for_each (fun x => k ← key x; Ok (k, x)) l;
  Ok (map snd (sort_reverse leb fst keyed)).

(** The view [scrapbook] under its decorator: the client afterwards, the
    response, and the entries handed to the template. *)
Definition scrapbook `{Runtime} (fs : filesystem) (content_dir : pystr)
    (req : Gate.request) (c : Gate.client)
  : result (Gate.client * Gate.response * list json) :=
  if Gate.authed c then
    match Gate.method req with
    | Gate.POST =>
        Ok (c, Gate.Redirect (Gate.UrlFor (py "scrapbook") None) 303, [])
    | Gate.GET =>
        entries ← load_json fs (content_dir ++ py "/scrapbook/entries.json") (JList []);
        entries ← py_iter entries;
        entries_sorted ← sorted_reverse date_leb entry_key entries;
        Ok (c, Gate.Render (py "scrapbook.html") (py "Scrapbook"), entries_sorted)
    end
  else
    Ok (c, Gate.Redirect (Gate.UrlFor (py "login") (Some (Gate.path req))) 302, []).

(** ** Notions used to state properties *)


(** The only whitespace is the plain space. *)
Definition only_plain_spaces (s : pystr) : Prop :=
  Forall (fun c => isspace c = true -> c = space) s.

(** The last day [datetime] knows, as an ordinal. *)
Definition _MAXORDINAL := 3652059.


(** The posts the loop appends for the files it is given: one for each file
    that loads and is not a draft, in the order of the files. *)
Definition published `{Runtime} (files : list (pystr * result document))
  : list blog_post :=
  flat_map (fun file =>
              match snd file with
              | Ok post => if is_draft post then [] else [make_post (fst file) post]
              | Raise _ => []
              end) files.



(** A blog directory: two posts of the same day, a draft, and an entry that
    is no post and cannot be read. *)
Definition sample_blog : gmap pystr (result document) :=
  {[ py "2024-03-10-first.md" :=
       Ok {| metadata := {[ py "date" := JStr (py "2024-03-10") ]};
             content := py "one" |};
     py "2024-03-10-second.md" :=
       Ok {| metadata := {[ py "date" := JStr (py "2024-03-10");
                            py "title" := JStr (py "Second") ]};
             content := py "two" |};
     py "2024-04-01-plan.md" :=
       Ok {| metadata := {[ py "draft" := JBool true ]}; content := py "three" |};
     py "notes.txt" := Raise PermissionError ]}.

(** * Properties of the access gate *)

Section GateFacts.
Import Gate.

Lemma state_authorized (c : client) : state c = Authorized <-> authed c = true.
Proof. unfold state. destruct (authed c); split; intros; congruence. Qed.

Lemma state_anonymous (c : client) : state c = Anonymous <-> authed c = false.
Proof. unfold state. destruct (authed c); split; intros; congruence. Qed.

Lemma str_truthy_true (s : pystr) : str_truthy s = true <-> s <> [].
Proof. destruct s; simpl; split; intros; congruence. Qed.


Lemma authed_after_grant (s : gmap pystr json) (f : list (pystr * pystr)) :
  authed {| session := <[scrapbook_authed := JBool true]> s; flashed := f |} = true.
Proof.
  unfold authed, session_get. simpl. rewrite lookup_insert_eq. reflexivity.
Qed.



(** The comparison is case-sensitive, and two empty strings do not match. *)
Example login_case_sensitive :
  let environ : gmap pystr pystr := {[ py "SCRAPBOOK_PASSWORD" := py "Secret" ]} in
  let attempt p := {| method := POST; path := py "/login";
                      form := {[ py "password" := p ]} |} in
  let anonymous := {| session := ∅; flashed := [] |} in
  state (fst (login environ (attempt (py "secret")) anonymous)) = Anonymous
  /\ state (fst (login environ (attempt (py "Secret")) anonymous)) = Authorized
  /\ state (fst (login ∅ (attempt []) anonymous)) = Anonymous.
Proof. vm_compute. auto. Qed.

(** C8. From any session, [logout] leaves the session Anonymous, and a
    second [logout] changes nothing more: same client state, same
    response. *)
Theorem logout_resets_and_is_idempotent (c : client) :
  state (fst (logout c)) = Anonymous
  /\ logout (fst (logout c)) = logout c.
Proof.
  split.
  - apply state_anonymous. unfold authed, session_get, logout. simpl.
    rewrite lookup_delete_eq. reflexivity.
  - unfold logout. simpl. rewrite delete_delete_eq. reflexivity.
Qed.

(** C9. In the Authorized state every request to [login] returns the client
    state untouched and a 303 redirect to the scrapbook page; the answer is
    the same for any other request and any other environment, so neither
    the submitted password nor the expected secret is looked at. *)
Theorem login_when_authorized_is_a_redirect
    (environ environ' : gmap pystr pystr) (req req' : request) (c : client) :
  state c = Authorized ->
  login environ req c = (c, Redirect (UrlFor (py "scrapbook") None) 303)
  /\ login environ' req' c = login environ req c.
Proof.
  intros H. apply state_authorized in H. unfold login. rewrite H. auto.
Qed.

Lemma login_when_authorized_witness :
  let c := {| session := {[ scrapbook_authed := JBool true ]}; flashed := [] |} in
  let wrong := {| method := POST; path := py "/login";
                  form := {[ py "password" := py "wrong" ]} |} in
  let visit := {| method := GET; path := py "/login"; form := ∅ |} in
  let environ : gmap pystr pystr := {[ py "SCRAPBOOK_PASSWORD" := py "Secret" ]} in
  state c = Authorized
  /\ login environ wrong c = (c, Redirect (UrlFor (py "scrapbook") None) 303)
  /\ login ∅ visit c = login environ wrong c.
Proof.
  split; [reflexivity|].
  apply (login_when_authorized_is_a_redirect _ ∅ _ _ _). reflexivity.
Defined.

End GateFacts.

(** ** The guard of the protected page *)

Lemma login_required_guard (view : Gate.request -> Gate.client -> Gate.client * Gate.response)
    (req : Gate.request) (c : Gate.client) :
  (Gate.state c = Gate.Anonymous ->
   Gate.login_required view req c
   = (c, Gate.Redirect (Gate.UrlFor (py "login") (Some (Gate.path req))) 302))
  /\ (Gate.state c = Gate.Authorized -> Gate.login_required view req c = view req c).
Proof.
  unfold Gate.login_required, Gate.state.
  destruct (Gate.authed c); split; intros; congruence.
Qed.

(** * Properties of the content loader *)

Lemma load_json_cases (fs : filesystem) (path : pystr) (default : json) :
  load_json fs path default =
  match fs !! path with
  | None => Ok default
  | Some Directory => Raise IsADirectoryError
  | Some (Unreadable _) => Raise PermissionError
  | Some (RegularFile UndecodableBytes) => Raise UnicodeDecodeError
  | Some (RegularFile InvalidJson) => Ok default
  | Some (RegularFile (Document v)) => Ok v
  end.
Proof.
  unfold load_json, path_open.
  destruct (fs !! path) as [[| c | [| |v]]|]; reflexivity.
Qed.



(** * Properties of the excerpt *)

Lemma lstrip_app_nonspace (a : pystr) (c : Z) :
  isspace c = false -> lstrip (a ++ [c]) = lstrip a ++ [c].
Proof.
  intros Hc. induction a as [|x a IH]; simpl.
  - rewrite Hc. reflexivity.
  - destruct (isspace x); [exact IH | reflexivity].
Qed.

Lemma lstrip_app_space (a : pystr) (c : Z) :
  isspace c = true ->
  lstrip (a ++ [c]) = match lstrip a with [] => [] | r => r ++ [c] end.
Proof.
  intros Hc. induction a as [|x a IH]; simpl.
  - rewrite Hc. reflexivity.
  - destruct (isspace x) eqn:Hx; [exact IH | reflexivity].
Qed.

Lemma rstrip_cons (c : Z) (s : pystr) :
  rstrip (c :: s) =
  match rstrip s with
  | [] => if isspace c then [] else [c]
  | r => c :: r
  end.
Proof.
  unfold rstrip. simpl rev at 2.
  destruct (isspace c) eqn:Hc.
  - rewrite lstrip_app_space by exact Hc.
    destruct (lstrip (rev s)) as [|x r]; [reflexivity|].
    rewrite rev_app_distr. simpl. 
    destruct (rev r ++ [x]) eqn:E; [destruct (rev r); discriminate|reflexivity].
  - rewrite lstrip_app_nonspace by exact Hc.
    rewrite rev_app_distr. simpl.
    destruct (rev (lstrip (rev s))); reflexivity.
Qed.

Lemma rstrip_cons_nonspace (c : Z) (s : pystr) :
  isspace c = false -> rstrip (c :: s) = c :: rstrip s.
Proof.
  intros Hc. rewrite rstrip_cons, Hc. destruct (rstrip s); reflexivity.
Qed.

Lemma squeeze_space (c : Z) (s : pystr) :
  isspace c = true -> squeeze_ws (c :: s) = space :: squeeze_ws (lstrip s).
Proof.
  revert c. induction s as [|c' s IH]; intros c Hc.
  - simpl. rewrite Hc. reflexivity.
  - cbn [squeeze_ws lstrip]. rewrite Hc.
    destruct (isspace c') eqn:Hc'.
    + rewrite <- (IH c' Hc'). simpl. rewrite Hc'. reflexivity.
    + simpl. rewrite Hc'. reflexivity.
Qed.

Lemma lstrip_head (s : pystr) :
  match lstrip s with [] => True | c :: _ => isspace c = false end.
Proof.
  induction s as [|c s IH]; simpl; [exact I|].
  destruct (isspace c) eqn:Hc; [exact IH | exact Hc].
Qed.

Lemma lstrip_squeeze (s : pystr) : lstrip (squeeze_ws s) = squeeze_ws (lstrip s).
Proof.
  destruct s as [|c s]; [reflexivity|].
  destruct (isspace c) eqn:Hc.
  - rewrite squeeze_space by exact Hc. cbn [lstrip]. rewrite Hc.
    change (isspace space) with true. cbv iota.
    pose proof (lstrip_head s) as H. destruct (lstrip s) as [|x r]; [reflexivity|].
    simpl. rewrite H. simpl. rewrite H. reflexivity.
  - simpl. rewrite Hc. simpl. rewrite Hc. reflexivity.
Qed.

Lemma split_ws_from_nonempty (w s : pystr) :
  Forall (fun p => p <> []) (split_ws_from w s).
Proof.
  revert w. induction s as [|c s IH]; intros w; simpl.
  - destruct w; constructor; [discriminate|constructor].
  - destruct (isspace c); [|apply IH].
    destruct w; [apply IH|]. constructor; [discriminate|apply IH].
Qed.

Lemma join_cons (sep p : pystr) (ps : list pystr) :
  join sep (p :: ps) = match ps with [] => p | _ => p ++ sep ++ join sep ps end.
Proof. destruct ps; reflexivity. Qed.

Lemma join_nil_inv (sep : pystr) (ps : list pystr) :
  Forall (fun p => p <> []) ps -> join sep ps = [] -> ps = [].
Proof.
  intros H E. destruct ps as [|p ps]; [reflexivity|]. exfalso.
  inversion H as [|? ? Hp _]; subst. rewrite join_cons in E.
  destruct p; [congruence|]. destruct ps; discriminate.
Qed.

(** The code's collapse, with a word in progress and without. *)
Lemma join_split_ws_from (s : pystr) :
  (forall w, w <> [] ->
     join [space] (split_ws_from w s) = w ++ rstrip (squeeze_ws s))
  /\ join [space] (split_ws_from [] s) = rstrip (squeeze_ws (lstrip s)).
Proof.
  induction s as [|c s [IHw IH0]].
  - split; [|reflexivity]. intros w Hw. simpl. destruct w; [congruence|].
    simpl. rewrite app_nil_r. reflexivity.
  - destruct (isspace c) eqn:Hc.
    + split.
      * intros w Hw. cbn [split_ws_from]. rewrite Hc.
        destruct w as [|x w]; [congruence|].
        rewrite join_cons, squeeze_space, rstrip_cons by exact Hc.
        rewrite <- IH0. change (isspace space) with true.
        pose proof (split_ws_from_nonempty [] s) as Hne.
        destruct (split_ws_from [] s) as [|p ps] eqn:E.
        -- simpl. rewrite app_nil_r. reflexivity.
        -- destruct (join [space] (p :: ps)) eqn:Ej; [|reflexivity].
           apply join_nil_inv in Ej; [discriminate|exact Hne].
      * cbn [split_ws_from lstrip]. rewrite Hc. exact IH0.
    + split.
      * intros w Hw. cbn [split_ws_from squeeze_ws]. rewrite Hc.
        rewrite IHw by (destruct w; discriminate).
        rewrite rstrip_cons_nonspace by exact Hc.
        rewrite <- app_assoc. reflexivity.
      * cbn [split_ws_from lstrip squeeze_ws]. rewrite Hc.
        cbn [squeeze_ws]. rewrite Hc.
        rewrite IHw by discriminate. rewrite rstrip_cons_nonspace by exact Hc.
        reflexivity.
Qed.

Lemma join_split_ws (s : pystr) : join [space] (split_ws s) = collapse_ws s.
Proof.
  unfold split_ws, collapse_ws, strip. rewrite lstrip_squeeze.
  apply join_split_ws_from.
Qed.

Lemma replace_char (a b : Z) (s : pystr) :
  replace [a] [b] s = map (fun c => if c =? a then b else c) s.
Proof.
  unfold replace. induction s as [|c s IH]; [reflexivity|].
  cbn [replace_from starts_with length Nat.sub map app].
  rewrite andb_true_r, (Z.eqb_sym a c).
  destruct (c =? a); simpl; rewrite IH; reflexivity.
Qed.

Lemma split_ws_from_map (f : Z -> Z) (w s : pystr) :
  (forall c, isspace c = true -> isspace (f c) = true) ->
  (forall c, isspace c = false -> f c = c) ->
  split_ws_from w (map f s) = split_ws_from w s.
Proof.
  intros Hws Hid. revert w. induction s as [|c s IH]; intros w; [reflexivity|].
  cbn [map split_ws_from]. destruct (isspace c) eqn:Hc.
  - rewrite (Hws c Hc), !IH. reflexivity.
  - rewrite (Hid c Hc), Hc. apply IH.
Qed.

Lemma excerpt_of_collapse (text : pystr) (max_len : Z) :
  excerpt_of text max_len =
  if max_len <? Z.of_nat (length (collapse_ws text))
  then slice_to (collapse_ws text) (max_len - 1) ++ [ellipsis]
  else collapse_ws text.
Proof.
  unfold excerpt_of. rewrite replace_char.
  unfold split_ws at 1 2 3. rewrite split_ws_from_map.
  - fold (split_ws text). rewrite join_split_ws. reflexivity.
  - intros c Hc. destruct (c =? 10); [reflexivity|exact Hc].
  - intros c Hc. destruct (c =? 10) eqn:E; [|reflexivity].
    apply Z.eqb_eq in E. subst c. discriminate.
Qed.

Lemma slice_to_take (s : pystr) (stop : Z) :
  0 <= stop <= Z.of_nat (length s) -> slice_to s stop = take (Z.to_nat stop) s.
Proof.
  intros H. unfold slice_to.
  destruct (stop <? 0) eqn:E; [apply Z.ltb_lt in E; lia|].
  rewrite Z.min_l by lia. reflexivity.
Qed.

(** C5. For a maximum length of at least one character: [plain_excerpt]
    returns the text with every whitespace run (newlines included) collapsed
    to one space and trimmed when that has at most [max_len] characters;
    otherwise its first [max_len - 1] characters, cut wherever that falls,
    followed by one ellipsis, which makes exactly [max_len] characters.  An
    empty string and an absent value ([None]) give the empty string. *)
Theorem plain_excerpt_contract (text : pystr) (max_len : Z) :
  1 <= max_len ->
  let collapsed := collapse_ws text in
  let len := Z.of_nat (length collapsed) in
  exists out,
    plain_excerpt (JStr text) max_len = Ok out
    /\ (len <= max_len -> out = collapsed)
    /\ (max_len < len ->
        out = take (Z.to_nat (max_len - 1)) collapsed ++ [ellipsis]
        /\ Z.of_nat (length out) = max_len
        /\ last out = Some ellipsis)
    /\ plain_excerpt (JStr []) max_len = Ok []
    /\ plain_excerpt JNull max_len = Ok [].
Proof.
  intros Hm collapsed len. exists (excerpt_of text max_len).
  split; [|split; [|split; [|split; reflexivity]]].
  - unfold plain_excerpt. destruct text as [|c text]; [|reflexivity].
    simpl. unfold excerpt_of. simpl. change (Z.of_nat 0) with 0.
    destruct (max_len <? 0) eqn:E; [apply Z.ltb_lt in E; lia|reflexivity].
  - intros Hle. rewrite excerpt_of_collapse. fold collapsed len.
    destruct (max_len <? len) eqn:E; [apply Z.ltb_lt in E; lia|reflexivity].
  - intros Hlt. rewrite excerpt_of_collapse. fold collapsed len.
    destruct (max_len <? len) eqn:E; [|apply Z.ltb_ge in E; lia].
    rewrite slice_to_take by (fold len; lia).
    split; [reflexivity|]. split.
    + rewrite length_app, length_take. simpl. unfold len in Hlt. lia.
    + apply last_snoc.
Qed.

Lemma plain_excerpt_contract_witness :
  1 <= 4
  /\ exists out,
       plain_excerpt (JStr (py "  a    b c ")) 4 = Ok out
       /\ out = py "a b" ++ [ellipsis]
       /\ Z.of_nat (length out) = 4.
Proof.
  split; [lia|].
  destruct (plain_excerpt_contract (py "  a    b c ") 4) as (out & H1 & _ & H3 & _);
    [lia|].
  exists out. destruct H3 as (H3 & H4 & _); [vm_compute; reflexivity|].
  split; [exact H1|]. split; [exact H3|exact H4].
Defined.

(** The two examples of the specification. *)
Example plain_excerpt_examples :
  (exists out, plain_excerpt (JStr (repeat 97 200)) 120 = Ok out
               /\ length out = 120%nat /\ last out = Some ellipsis)
  /\ plain_excerpt (JStr (py "short")) 120 = Ok (py "short").
Proof.
  split; [|reflexivity]. eexists. split; [vm_compute; reflexivity|].
  split; reflexivity.
Qed.

(** Below one the slice counts from the end: nothing is shortened to
    [max_len] characters. *)
Example plain_excerpt_max_len_zero :
  plain_excerpt (JStr (py "abc")) 0 = Ok (py "ab" ++ [ellipsis]).
Proof. reflexivity. Qed.

(** * Properties of the date utility *)

Section DateFacts.
Context `{Runtime}.

Lemma check_date_fields_ok (y m d : Z) (dt : date) :
  _check_date_fields y m d = Ok dt <-> dt = mkdate y m d /\ valid_date (mkdate y m d).
Proof.
  unfold _check_date_fields, valid_date, MINYEAR, MAXYEAR. simpl.
  destruct (1 <=? y) eqn:E1, (y <=? 9999) eqn:E2, (1 <=? m) eqn:E3,
    (m <=? 12) eqn:E4, (1 <=? d) eqn:E5, (d <=? _days_in_month y m) eqn:E6;
    simpl; split; try discriminate;
    try (intros [= <-]; split; [reflexivity|lia]);
    try (intros [-> _]; reflexivity); intros [_ ?]; lia.
Qed.

Lemma strptime_valid (s : pystr) (dt : date) :
  strptime s = Ok dt -> valid_date dt.
Proof.
  unfold strptime. destruct (re_match format_regex s) as [[texts rest]|]; [|discriminate].
  destruct texts as [|Y [|h1 [|m [|h2 [|d [|]]]]]]; try discriminate.
  destruct rest; [|discriminate].
  destruct (py_int Y) as [y|]; [|discriminate].
  destruct (py_int m) as [mv|]; [|discriminate].
  destruct (py_int d) as [dv|]; [|discriminate].
  cbn. intros E. apply check_date_fields_ok in E as [-> E]. exact E.
Qed.

Lemma ascii_digit_some (c v : Z) :
  ascii_digit c = Some v -> c = v + 48 /\ 0 <= v <= 9.
Proof.
  unfold ascii_digit. destruct (48 <=? c) eqn:E1, (c <=? 57) eqn:E2; simpl;
    intros [= <-]; lia.
Qed.

Lemma decimal_value_ascii (v : Z) :
  0 <= v <= 9 -> decimal_value (v + 48) = Some v.
Proof.
  intros Hv. unfold decimal_value.
  destruct (48 <=? v + 48) eqn:E1, (v + 48 <=? 57) eqn:E2; simpl; try lia.
  f_equal; lia.
Qed.

Lemma isspace_ascii_digit (v : Z) : 0 <= v <= 9 -> isspace (v + 48) = false.
Proof.
  intros Hv. unfold isspace.
  repeat match goal with
         | |- context [?a <=? ?b] => destruct (Z.leb_spec a b); try lia
         | |- context [?a =? ?b] => destruct (Z.eqb_spec a b); try lia
         end; reflexivity.
Qed.


Lemma lstrip_nonspace (c : Z) (s : pystr) : isspace c = false -> lstrip (c :: s) = c :: s.
Proof. intros Hc. simpl. rewrite Hc. reflexivity. Qed.

Lemma strip_no_space (s : pystr) :
  Forall (fun c => isspace c = false) s -> strip s = s.
Proof.
  intros Hs. unfold strip.
  assert (E : lstrip s = s) by (destruct Hs as [|c s Hc _]; [reflexivity|apply lstrip_nonspace, Hc]).
  rewrite E. clear E. induction Hs as [|c s Hc _ IH]; [reflexivity|].
  rewrite rstrip_cons_nonspace by exact Hc. rewrite IH. reflexivity.
Qed.

(** [int] of two and of four ASCII digits. *)
Lemma py_int_2 (a b : Z) :
  0 <= a <= 9 -> 0 <= b <= 9 -> py_int [a + 48; b + 48] = Ok (10 * a + b).
Proof.
  intros Ha Hb. unfold py_int.
  rewrite strip_no_space by (repeat constructor; apply isspace_ascii_digit; assumption).
  cbn [digits_value]. rewrite !decimal_value_ascii by assumption.
  f_equal; lia.
Qed.

Lemma py_int_4 (a b c d : Z) :
  0 <= a <= 9 -> 0 <= b <= 9 -> 0 <= c <= 9 -> 0 <= d <= 9 ->
  py_int [a + 48; b + 48; c + 48; d + 48] = Ok (1000 * a + 100 * b + 10 * c + d).
Proof.
  intros Ha Hb Hc Hd. unfold py_int.
  rewrite strip_no_space by (repeat constructor; apply isspace_ascii_digit; assumption).
  cbn [digits_value]. rewrite !decimal_value_ascii by assumption.
  f_equal; lia.
Qed.

(** The year group has one alternative: nothing to backtrack into. *)
Lemma re_match_year (a b c d : Z) (groups : list (list (list cls))) (s : pystr) :
  0 <= a <= 9 -> 0 <= b <= 9 -> 0 <= c <= 9 -> 0 <= d <= 9 ->
  re_match (re_Y :: groups) (a + 48 :: b + 48 :: c + 48 :: d + 48 :: s) =
  match re_match groups s with
  | Some (texts, rest) => Some ([a + 48; b + 48; c + 48; d + 48] :: texts, rest)
  | None => None
  end.
Proof.
  intros Ha Hb Hc Hd.
  cbn [re_match re_Y first_alt alt_match cls_match].
  rewrite !decimal_value_ascii by assumption.
  destruct (re_match groups s) as [[texts rest]|]; reflexivity.
Qed.

Lemma ascii_digits_In (v : Z) : 0 <= v <= 9 -> In (v + 48) ascii_digits.
Proof.
  intros Hv. unfold ascii_digits.
  assert (v = 0 \/ v = 1 \/ v = 2 \/ v = 3 \/ v = 4 \/ v = 5 \/ v = 6 \/ v = 7
          \/ v = 8 \/ v = 9) as Hc by lia.
  simpl. repeat (destruct Hc as [-> | Hc]; [tauto|]). subst. tauto.
Qed.

(** On every pair of two-digit numbers in range the two-character
    alternatives win. *)
Lemma month_day_table :
  forallb (fun m1 => forallb (fun m2 => forallb (fun d1 => forallb (fun d2 =>
    month_day_matched m1 m2 d1 d2) ascii_digits) ascii_digits) ascii_digits)
    ascii_digits = true.
Proof. vm_compute. reflexivity. Qed.

Lemma re_match_month_day (m1 m2 d1 d2 : Z) :
  0 <= m1 <= 9 -> 0 <= m2 <= 9 -> 0 <= d1 <= 9 -> 0 <= d2 <= 9 ->
  1 <= 10 * m1 + m2 <= 12 -> 1 <= 10 * d1 + d2 <= 31 ->
  re_match [re_hyphen; re_m; re_hyphen; re_d]
    [hyphen; m1 + 48; m2 + 48; hyphen; d1 + 48; d2 + 48]
  = Some ([[hyphen]; [m1 + 48; m2 + 48]; [hyphen]; [d1 + 48; d2 + 48]], []).
Proof.
  intros H1 H2 H3 H4 Hm Hd.
  pose proof month_day_table as T.
  rewrite forallb_forall in T. specialize (T _ (ascii_digits_In m1 H1)).
  rewrite forallb_forall in T. specialize (T _ (ascii_digits_In m2 H2)).
  rewrite forallb_forall in T. specialize (T _ (ascii_digits_In d1 H3)).
  rewrite forallb_forall in T. specialize (T _ (ascii_digits_In d2 H4)).
  unfold month_day_matched in T.
  replace (10 * (m1 + 48 - 48) + (m2 + 48 - 48)) with (10 * m1 + m2) in T by lia.
  replace (10 * (d1 + 48 - 48) + (d2 + 48 - 48)) with (10 * d1 + d2) in T by lia.
  destruct (Z.leb_spec 1 (10 * m1 + m2)); [|lia].
  destruct (Z.leb_spec (10 * m1 + m2) 12); [|lia].
  destruct (Z.leb_spec 1 (10 * d1 + d2)); [|lia].
  destruct (Z.leb_spec (10 * d1 + d2) 31); [|lia].
  simpl in T. apply bool_decide_eq_true in T. exact T.
Qed.


(** Every strict YYYY-MM-DD string is read by [strptime] as the date it
    spells. *)
Lemma strptime_strict (s : pystr) (dt : date) :
  strict_ymd s = Some dt -> strptime s = Ok dt.
Proof.
  unfold strict_ymd.
  destruct s as [|y1 [|y2 [|y3 [|y4 [|h1 [|m1 [|m2 [|h2 [|d1 [|d2 [|]]]]]]]]]]];
    try discriminate.
  destruct (ascii_digit y1) as [a|] eqn:E1; [|discriminate].
  destruct (ascii_digit y2) as [b|] eqn:E2; [|discriminate].
  destruct (ascii_digit y3) as [c|] eqn:E3; [|discriminate].
  destruct (ascii_digit y4) as [d|] eqn:E4; [|discriminate].
  destruct (ascii_digit m1) as [e|] eqn:E5; [|discriminate].
  destruct (ascii_digit m2) as [f|] eqn:E6; [|discriminate].
  destruct (ascii_digit d1) as [g|] eqn:E7; [|discriminate].
  destruct (ascii_digit d2) as [h|] eqn:E8; [|discriminate].
  cbn.
  apply ascii_digit_some in E1 as [-> ?], E2 as [-> ?], E3 as [-> ?], E4 as [-> ?],
    E5 as [-> ?], E6 as [-> ?], E7 as [-> ?], E8 as [-> ?].
  destruct (Z.eqb_spec h1 hyphen) as [->|]; [|discriminate].
  destruct (Z.eqb_spec h2 hyphen) as [->|]; [|discriminate].
  cbn [andb].
  destruct (_check_date_fields _ _ _) as [dt'|] eqn:Ec; [|discriminate].
  intros [= ->].
  pose proof Ec as Ev. apply check_date_fields_ok in Ev as [_ (_ & Hm & Hd)].
  cbn [month day year] in Hm, Hd.
  assert (Hd' : 1 <= 10 * g + h <= 31).
  { split; [lia|]. destruct Hd as [_ Hd]. revert Hd. unfold _days_in_month.
    destruct (_ && _); [lia|].
    assert (Hc : 10 * e + f = 1 \/ 10 * e + f = 2 \/ 10 * e + f = 3
                 \/ 10 * e + f = 4 \/ 10 * e + f = 5 \/ 10 * e + f = 6
                 \/ 10 * e + f = 7 \/ 10 * e + f = 8 \/ 10 * e + f = 9
                 \/ 10 * e + f = 10 \/ 10 * e + f = 11 \/ 10 * e + f = 12) by lia.
    repeat (destruct Hc as [-> | Hc]; [simpl; lia|]). rewrite Hc. simpl. lia. }
  unfold strptime, format_regex.
  rewrite re_match_year by assumption.
  rewrite re_match_month_day by assumption.
  rewrite py_int_4 by assumption. cbn [mbind result_bind].
  rewrite !py_int_2 by assumption. cbn [mbind result_bind].
  exact Ec.
Qed.


(** ** Ordinals follow the calendar *)

Lemma days_before_year_next (y : Z) :
  _days_before_year (y + 1) =
  _days_before_year y + 365 + (if _is_leap y then 1 else 0).
Proof.
  unfold _days_before_year, _is_leap.
  replace (y + 1 - 1) with y by lia.
  destruct (Z.eqb_spec (y mod 4) 0), (Z.eqb_spec (y mod 100) 0),
    (Z.eqb_spec (y mod 400) 0); cbn [andb orb negb];
    Z.div_mod_to_equations; lia.
Qed.

Lemma days_before_year_mono (y1 y2 : Z) :
  y1 <= y2 -> _days_before_year y1 <= _days_before_year y2.
Proof.
  intros Hy. unfold _days_before_year. Z.div_mod_to_equations. lia.
Qed.

Lemma month_cases (m : Z) :
  1 <= m <= 12 ->
  m = 1 \/ m = 2 \/ m = 3 \/ m = 4 \/ m = 5 \/ m = 6 \/ m = 7 \/ m = 8
  \/ m = 9 \/ m = 10 \/ m = 11 \/ m = 12.
Proof. lia. Qed.

Ltac each_month H :=
  apply month_cases in H;
  repeat (destruct H as [-> | H]); [..|subst].

(** The day of the year lies in the year. *)
Lemma day_of_year_bounds (dt : date) :
  valid_date dt ->
  1 <= _days_before_month (year dt) (month dt) + day dt
    <= 365 + (if _is_leap (year dt) then 1 else 0).
Proof.
  destruct dt as [y m d]. unfold valid_date. cbn [year month day].
  intros (_ & Hm & Hd). revert Hd. unfold _days_before_month, _days_in_month.
  each_month Hm; destruct (_is_leap y); simpl; lia.
Qed.

Lemma days_before_month_next (y m1 m2 : Z) :
  1 <= m1 <= 12 -> 1 <= m2 <= 12 -> m1 < m2 ->
  _days_before_month y m1 + _days_in_month y m1 <= _days_before_month y m2.
Proof.
  intros H1 H2. unfold _days_before_month, _days_in_month.
  each_month H1; each_month H2; destruct (_is_leap y); simpl; lia.
Qed.

Lemma date_leb_cases (a b : date) :
  date_leb a b = true <->
  year a < year b
  \/ (year a = year b
      /\ (month a < month b \/ (month a = month b /\ day a <= day b))).
Proof.
  unfold date_leb.
  destruct (Z.ltb_spec (year a) (year b)), (Z.eqb_spec (year a) (year b)),
    (Z.ltb_spec (month a) (month b)), (Z.eqb_spec (month a) (month b)),
    (Z.leb_spec (day a) (day b)); cbn [andb orb]; split; intros; try lia;
    try discriminate; reflexivity.
Qed.

Lemma toordinal_mono (a b : date) :
  valid_date a -> valid_date b -> date_leb a b = true ->
  toordinal a <= toordinal b.
Proof.
  intros Ha Hb Hle. apply date_leb_cases in Hle.
  pose proof (day_of_year_bounds a Ha) as Da.
  pose proof (day_of_year_bounds b Hb) as Db.
  unfold toordinal, _ymd2ord.
  destruct Hle as [Hy | (Hy & [Hm | (Hm & Hd)])].
  - pose proof (days_before_year_next (year a)) as Hn.
    pose proof (days_before_year_mono (year a + 1) (year b)) as Hmono. lia.
  - destruct Ha as (_ & Ha1 & Ha2), Hb as (_ & Hb1 & Hb2).
    pose proof (days_before_month_next (year a) (month a) (month b) Ha1 Hb1 Hm).
    rewrite <- Hy. lia.
  - rewrite Hy, Hm. lia.
Qed.


(** C2, as the code has it.  [days_between] always returns an integer (it
    is a total function: every exception is caught).  It returns 0 when
    [strptime] rejects either bound for the format %Y-%m-%d, and when the end
    date is strictly before the start date; otherwise the difference of the
    two dates in days plus 1, which is at least 1.  Every strict YYYY-MM-DD
    string is accepted and read as the date it spells; the parser is not
    strict, though: it also takes a month or a day without its leading zero.
    The three examples of the specification hold. *)
Theorem days_between_contract (start_ymd end_ymd : pystr) :
  let span := days_between start_ymd end_ymd in
  ((exists e, strptime start_ymd = Raise e) \/ (exists e, strptime end_ymd = Raise e) ->
   span = 0)
  /\ (forall s e, strptime start_ymd = Ok s -> strptime end_ymd = Ok e ->
      (date_leb s e = false -> span = 0)
      /\ (date_leb s e = true -> span = toordinal e - toordinal s + 1 /\ 1 <= span))
  /\ (forall s, strict_ymd start_ymd = Some s -> strptime start_ymd = Ok s)
  /\ (forall e, strict_ymd end_ymd = Some e -> strptime end_ymd = Ok e)
  /\ days_between (py "2024-01-01") (py "2024-01-01") = 1
  /\ days_between (py "2024-01-05") (py "2024-01-01") = 0
  /\ days_between (py "bad") (py "2024-01-01") = 0
  /\ days_between (py "2024-1-5") (py "2024-01-05") = 1.
Proof.
  intros span. unfold span, days_between.
  split; [|split; [|split; [|split; [|repeat split; reflexivity]]]].
  - intros [[e ->] | [e ->]]; [reflexivity|].
    destruct (strptime start_ymd); reflexivity.
  - intros s e Es Ee.
    pose proof (strptime_valid _ _ Es) as Hs.
    pose proof (strptime_valid _ _ Ee) as He.
    rewrite Es, Ee. cbn. split; intros Hle; rewrite Hle; [reflexivity|].
    split; [reflexivity|].
    pose proof (toordinal_mono s e Hs He Hle). lia.
  - apply strptime_strict.
  - apply strptime_strict.
Qed.

End DateFacts.

(** C2 as stated fails: a bound that is not a strict YYYY-MM-DD string does
    not always give 0.  Without the leading zeros the date is still read. *)
Lemma days_between_not_strict :
  strict_ymd (py "2024-1-5") = None
  /\ (forall rt : Runtime, @days_between rt (py "2024-1-5") (py "2024-1-5") = 1)
  /\ (forall rt : Runtime, @days_between rt (py "2024-1-5") (py "2024-1-9") = 5).
Proof. repeat split; reflexivity. Qed.

(** * Properties of the slug *)

Lemma after_hyphens_0 (s : pystr) : after_hyphens 0 s = Some s.
Proof. destruct s; reflexivity. Qed.

Lemma split_from_hyphen (n : nat) (w s : pystr) :
  match after_hyphens n s with
  | Some t =>
      length (split_from [hyphen] n 0 w s) = S n
      /\ last_part (split_from [hyphen] n 0 w s)
         = match n with O => w ++ s | S _ => t end
  | None => (length (split_from [hyphen] n 0 w s) <= n)%nat
  end.
Proof.
  revert n w. induction s as [|c s IH]; intros n w.
  - destruct n; simpl; [rewrite app_nil_r; auto|lia].
  - destruct n as [|n].
    + cbn [after_hyphens split_from]. specialize (IH 0%nat (w ++ [c])).
      rewrite after_hyphens_0 in IH. destruct IH as [IH1 IH2].
      rewrite IH1, IH2, <- app_assoc. auto.
    + cbn [after_hyphens split_from starts_with length Nat.sub].
      rewrite andb_true_r, (Z.eqb_sym hyphen c).
      destruct (c =? hyphen).
      * specialize (IH n []). destruct (after_hyphens n s) as [t|] eqn:E.
        -- destruct IH as [IH1 IH2]. cbn [length]. rewrite IH1. split; [reflexivity|].
           unfold last_part in *. 
           destruct (split_from [hyphen] n 0 [] s) as [|p ps] eqn:Es; [discriminate|].
           change (List.last (w :: p :: ps) []) with (List.last (p :: ps) []).
           rewrite IH2.
           destruct n; [|reflexivity]. rewrite after_hyphens_0 in E. simpl. congruence.
        -- cbn [length]. lia.
      * specialize (IH (S n) (w ++ [c])).
        destruct (after_hyphens (S n) s); exact IH.
Qed.

(** The two branches of [slugify] on a stem. *)
Lemma split_stem (stem : pystr) :
  (let parts := split [hyphen] 3 stem in
   if (4 <=? length parts)%nat then last_part parts else stem)
  = slug_of_stem stem.
Proof.
  unfold slug_of_stem, split. cbv zeta.
  pose proof (split_from_hyphen 3 [] stem) as H.
  destruct (after_hyphens 3 stem) as [t|].
  - destruct H as [H1 H2]. rewrite H1, H2. reflexivity.
  - destruct (Nat.leb_spec 4 (length (split_from [hyphen] 3 0 [] stem))); [lia|reflexivity].
Qed.

Lemma slugify_stem (filename : pystr) :
  slugify filename
  = slug_of_stem (replace (py ".md") [] (last_part (rsplit (py "/") 1 filename))).
Proof. unfold slugify. apply split_stem. Qed.

(** ** Names the code does treat as the specification says *)

Lemma split_from_absent (c : Z) (n : nat) (w s : pystr) :
  c ∉ s -> split_from [c] n 0 w s = [w ++ s].
Proof.
  revert n w. induction s as [|x s IH]; intros n w Hc.
  - simpl. rewrite app_nil_r. reflexivity.
  - apply not_elem_of_cons in Hc as [Hx Hs].
    cbn [split_from starts_with]. rewrite andb_true_r.
    destruct (Z.eqb_spec c x) as [E|_]; [exfalso; exact (Hx E)|].
    destruct n; rewrite IH by exact Hs; rewrite <- app_assoc; reflexivity.
Qed.

Lemma rsplit_absent (c : Z) (n : nat) (s : pystr) :
  c ∉ s -> rsplit [c] n s = [s].
Proof.
  intros Hc. unfold rsplit, split. cbn [rev app].
  rewrite split_from_absent
    by (rewrite list_elem_of_In, <- in_rev, <- list_elem_of_In; exact Hc).
  cbn. rewrite rev_involutive. reflexivity.
Qed.

Lemma replace_md_suffix (stem : pystr) :
  46 ∉ stem -> replace (py ".md") [] (stem ++ py ".md") = stem.
Proof.
  intros Hdot. change (py ".md") with [46; 109; 100].
  change (replace [46; 109; 100] []) with (replace_from [46; 109; 100] [] 0).
  induction stem as [|c stem IH]; [reflexivity|].
  apply not_elem_of_cons in Hdot as [Hc Hs].
  cbn [app replace_from starts_with]. destruct (Z.eqb_spec 46 c) as [E|_]; [exfalso; exact (Hc E)|].
  cbn [andb]. rewrite IH by exact Hs. reflexivity.
Qed.

Lemma without_extension_md (stem : pystr) :
  without_extension (stem ++ py ".md") = stem.
Proof.
  unfold without_extension.
  replace (length (stem ++ py ".md") - 3)%nat with (length stem)
    by (rewrite length_app; cbn; lia).
  rewrite drop_app_length, take_app_length.
  rewrite bool_decide_eq_true_2 by reflexivity. reflexivity.
Qed.

(** X13. A post named [stem.md], the stem free of dots and slashes, gets the
    slug the specification derives. *)
Lemma slugify_plain_name (stem : pystr) :
  46 ∉ stem -> 47 ∉ stem ->
  slugify (stem ++ py ".md") = slug_of_stem stem
  /\ derived_slug (stem ++ py ".md") = slug_of_stem stem.
Proof.
  intros Hdot Hslash. split.
  - rewrite slugify_stem. change (py "/") with [47].
    rewrite rsplit_absent.
    + cbn [last_part List.last]. rewrite replace_md_suffix by exact Hdot. reflexivity.
    + rewrite elem_of_app. intros [?|Hin]; [tauto|].
      vm_compute in Hin. repeat (apply elem_of_cons in Hin as [Hin|Hin]; [discriminate|]).
      inversion Hin.
  - unfold derived_slug. rewrite without_extension_md. reflexivity.
Qed.

(** C4, where the code departs from it.  With no slug in the metadata the
    slug is [slugify] of the file name, and [slugify] does take what follows
    the third hyphen of the stem when the stem has four segments or more, and
    the stem otherwise; the examples of the specification come out as stated.
    But the stem is computed by deleting every [.md] of the file name, not
    its extension only: for the post [2024-03-10-about.md-files.md] the slug
    is [about-files], where stripping the extension gives
    [about.md-files]. *)
Theorem slugify_removes_every_md (filename : pystr) :
  post_slug ∅ filename = JStr (slugify filename)
  /\ slugify filename
     = slug_of_stem (replace (py ".md") [] (last_part (rsplit (py "/") 1 filename)))
  /\ slugify (py "2024-03-10-about.md-files.md") = py "about-files"
  /\ derived_slug (py "2024-03-10-about.md-files.md") = py "about.md-files"
  /\ slugify (py "2024-03-10-my-trip.md") = py "my-trip"
  /\ slugify (py "2024-03-10.md") = py "2024-03-10"
  /\ derived_slug (py "2024-03-10-my-trip.md") = py "my-trip"
  /\ derived_slug (py "2024-03-10.md") = py "2024-03-10".
Proof.
  split; [reflexivity|]. split; [apply slugify_stem|].
  repeat split; reflexivity.
Qed.

(** * Properties of the sort and of the normalisers *)

Section SortFacts.
Context {A K : Type} (leb : K -> K -> bool) (key : A -> K).
Hypothesis leb_total : forall a b, leb a b = true \/ leb b a = true.
Hypothesis leb_trans : forall a b c, leb a b = true -> leb b c = true -> leb a c = true.

Lemma insert_reverse_perm (x : A) (l : list A) :
  insert_reverse leb key x l ≡ₚ x :: l.
Proof.
  induction l as [|y l IH]; simpl; [reflexivity|].
  destruct (leb (key y) (key x)); [reflexivity|].
  rewrite IH. apply Permutation_swap.
Qed.

Lemma sort_reverse_perm (l : list A) : sort_reverse leb key l ≡ₚ l.
Proof.
  induction l as [|x l IH]; simpl; [reflexivity|].
  rewrite insert_reverse_perm, IH. reflexivity.
Qed.

Lemma sort_reverse_length (l : list A) :
  length (sort_reverse leb key l) = length l.
Proof. apply Permutation_length, sort_reverse_perm. Qed.

Lemma insert_reverse_descending (x : A) (l : list A) :
  descending leb key l -> descending leb key (insert_reverse leb key x l).
Proof.
  unfold descending. induction 1 as [|y l Hl IH Hy]; simpl.
  - repeat constructor.
  - destruct (leb (key y) (key x)) eqn:E.
    + constructor; [constructor; assumption|].
      constructor; [exact E|].
      eapply Forall_impl; [exact Hy|]. intros z Hz. simpl in Hz.
      eapply leb_trans; eassumption.
    + constructor; [exact IH|].
      rewrite insert_reverse_perm. constructor; [|exact Hy].
      destruct (leb_total (key x) (key y)); [assumption|congruence].
Qed.

Lemma sort_reverse_descending (l : list A) :
  descending leb key (sort_reverse leb key l).
Proof.
  induction l as [|x l IH]; simpl; [constructor|].
  apply insert_reverse_descending, IH.
Qed.

(** Stability: the records whose key is equivalent to [k] keep their
    order. *)
Lemma insert_reverse_stable (k : K) (x : A) (l : list A) :
  List.filter (same_key leb key k) (insert_reverse leb key x l)
  = List.filter (same_key leb key k) (x :: l).
Proof.
  induction l as [|y l IH]; [reflexivity|].
  cbn [insert_reverse]. destruct (leb (key y) (key x)) eqn:E; [reflexivity|].
  cbn [List.filter] in *. rewrite IH.
  destruct (same_key leb key k x) eqn:Ex, (same_key leb key k y) eqn:Ey; try reflexivity.
  exfalso. unfold same_key in *.
  apply andb_true_iff in Ex as [_ Ex], Ey as [Ey _].
  rewrite (leb_trans _ _ _ Ey Ex) in E. discriminate.
Qed.

Lemma sort_reverse_stable (k : K) (l : list A) :
  List.filter (same_key leb key k) (sort_reverse leb key l) = List.filter (same_key leb key k) l.
Proof.
  induction l as [|x l IH]; [reflexivity|].
  cbn [sort_reverse]. rewrite insert_reverse_stable.
  cbn [List.filter]. rewrite IH. reflexivity.
Qed.

End SortFacts.

(** ** The order of dates *)

Lemma date_leb_total (a b : date) : date_leb a b = true \/ date_leb b a = true.
Proof. rewrite !date_leb_cases. lia. Qed.

Lemma date_leb_trans (a b c : date) :
  date_leb a b = true -> date_leb b c = true -> date_leb a c = true.
Proof. rewrite !date_leb_cases. lia. Qed.

Lemma date_leb_antisym (a b : date) :
  date_leb a b = true -> date_leb b a = true -> a = b.
Proof.
  rewrite !date_leb_cases. destruct a as [y1 m1 d1], b as [y2 m2 d2].
  cbn [year month day].
  intros H1 H2. f_equal; lia.
Qed.

Lemma datetime_min_least (dt : date) :
  valid_date dt -> date_leb datetime_min dt = true.
Proof.
  unfold valid_date, MINYEAR. intros (Hy & Hm & Hd).
  apply date_leb_cases. cbn [datetime_min year month day]. lia.
Qed.

Section TravelFacts.
Context `{Runtime}.

Lemma parse_date_ymd_cases (s : pystr) :
  (exists dt, strptime s = Ok dt /\ parse_date_ymd s = dt)
  \/ ((exists e, strptime s = Raise e) /\ parse_date_ymd s = datetime_min).
Proof.
  unfold parse_date_ymd. destruct (strptime s) as [dt|e]; [left|right]; eauto.
Qed.

Lemma parse_date_ymd_valid (s : pystr) : valid_date (parse_date_ymd s).
Proof.
  destruct (parse_date_ymd_cases s) as [(dt & E & ->) | (_ & ->)].
  - eapply strptime_valid, E.
  - unfold valid_date. repeat split; vm_compute; discriminate.
Qed.


(** ** The loop *)

Lemma for_each_ok {X Y} (f : X -> result Y) (xs : list X) (ys : list Y) :
  for_each f xs = Ok ys <-> Forall2 (fun x y => f x = Ok y) xs ys.
Proof.
  revert ys. induction xs as [|x xs IH]; intros ys; simpl.
  - split; [intros [= <-]; constructor | intros Hf; inversion Hf; reflexivity].
  - destruct (f x) as [y|e] eqn:Ex; cbn.
    + destruct (for_each f xs) as [ys'|e] eqn:Exs; cbn.
      * split.
        -- intros [= <-]. constructor; [exact Ex|]. apply IH. reflexivity.
        -- intros Hf. inversion Hf as [|? y' ? ys'' Hy Hys]; subst.
           apply IH in Hys. congruence.
      * split; [discriminate|]. intros Hf.
        inversion Hf as [|? y' ? ys'' Hy Hys]; subst. apply IH in Hys. discriminate.
    + split; [discriminate|]. intros Hf. inversion Hf; congruence.
Qed.

Lemma for_each_total {X Y} (f : X -> result Y) (xs : list X) :
  Forall (fun x => exists y, f x = Ok y) xs -> exists ys, for_each f xs = Ok ys.
Proof.
  induction 1 as [|x xs [y Hy] _ [ys Hys]]; simpl; [eauto|].
  rewrite Hy. cbn. rewrite Hys. cbn. eauto.
Qed.

Lemma for_each_raise {X Y} (f : X -> result Y) (xs : list X) (e : exn) :
  for_each f xs = Raise e -> Exists (fun x => f x = Raise e) xs.
Proof.
  induction xs as [|x xs IH]; simpl; [discriminate|].
  destruct (f x) as [y|e'] eqn:Ex; cbn.
  - destruct (for_each f xs) as [ys|e'']; cbn; [discriminate|].
    intros [= ->]. right. apply IH. reflexivity.
  - intros [= ->]. left. exact Ex.
Qed.

(** ** One travel stop *)

Lemma or_strip_cases (v : json) (default : pystr) :
  or_strip v default =
  if truthy v
  then match v with JStr s => Ok (strip s) | _ => Raise AttributeError end
  else Ok (strip default).
Proof.
  unfold or_strip, py_or. destruct (truthy v) eqn:E; [|reflexivity].
  destruct v; reflexivity.
Qed.

Lemma or_strip_text (d : gmap pystr json) (key default : pystr) :
  text_or_blank d key = true -> exists s, or_strip (field d key) default = Ok s.
Proof.
  unfold text_or_blank, field. rewrite or_strip_cases.
  destruct (d !! key) as [v|]; [|cbn; eauto].
  destruct v; cbn; intros E; try (rewrite negb_true_iff in E; rewrite E); eauto.
  destruct s; eauto.
Qed.

Lemma or_strip_not_text (d : gmap pystr json) (key default : pystr) :
  text_or_blank d key = false -> or_strip (field d key) default = Raise AttributeError.
Proof.
  unfold text_or_blank, field. rewrite or_strip_cases.
  destruct (d !! key) as [v|]; [|discriminate].
  destruct v; cbn; intros E; try discriminate;
    rewrite negb_false_iff in E; rewrite E; reflexivity.
Qed.

Lemma normalize_stop_dict (d : gmap pystr json) :
  normalize_stop (JDict d) =
  raw_id ← or_strip (field d (py "id")) [];
  place ← or_strip (field d (py "place")) [];
  country ← or_strip (field d (py "country")) [];
  type ← or_strip (field d (py "type")) (py "visited");
  let start := py_str (match d !! py "start_date" with Some x => x | None => JStr [] end) in
  let end_ := py_str (match d !! py "end_date" with Some x => x | None => JStr [] end) in
  Ok {| stop_id := match raw_id with
                   | [] => replace [space] [hyphen] (lower place) ++ [hyphen] ++ start
                   | _ => raw_id
                   end;
        stop_place := place;
        stop_country := country;
        stop_lat := field d (py "lat");
        stop_lng := field d (py "lng");
        stop_start_date := start;
        stop_end_date := end_;
        stop_days := days_between start end_;
        stop_type := type;
        stop_notes_md := py_or (field d (py "notes_md")) (JStr []) |}.
Proof.
  unfold normalize_stop, dict_get. cbn [mbind result_bind]. fold (field d (py "id")).
  fold (field d (py "place")) (field d (py "country")) (field d (py "type"))
    (field d (py "lat")) (field d (py "lng")) (field d (py "notes_md")).
  destruct (or_strip (field d (py "id")) []); [|reflexivity].
  destruct (or_strip (field d (py "place")) []); [|reflexivity].
  destruct (or_strip (field d (py "country")) []); [|reflexivity].
  destruct (or_strip (field d (py "type")) (py "visited")); reflexivity.
Qed.


(** The loop body returns exactly on raw stops; every failure is the
    [AttributeError] of a method looked up on a value that lacks it. *)
Lemma normalize_stop_raw (st : json) :
  if raw_stop st then exists r, normalize_stop st = Ok r
  else normalize_stop st = Raise AttributeError.
Proof.
  destruct st as [| | | | |l|d]; try reflexivity.
  rewrite normalize_stop_dict. unfold raw_stop.
  destruct (text_or_blank d (py "id")) eqn:E1;
    [apply (or_strip_text _ _ []) in E1 as [s1 ->]
    |rewrite (or_strip_not_text _ _ [] E1); reflexivity].
  destruct (text_or_blank d (py "place")) eqn:E2;
    [apply (or_strip_text _ _ []) in E2 as [s2 ->]
    |rewrite (or_strip_not_text _ _ [] E2); reflexivity].
  destruct (text_or_blank d (py "country")) eqn:E3;
    [apply (or_strip_text _ _ []) in E3 as [s3 ->]
    |rewrite (or_strip_not_text _ _ [] E3); reflexivity].
  destruct (text_or_blank d (py "type")) eqn:E4;
    [apply (or_strip_text _ _ (py "visited")) in E4 as [s4 ->]
    |rewrite (or_strip_not_text _ _ (py "visited") E4); reflexivity].
  cbn. eauto.
Qed.

Lemma descending_lookup {X K} (leb : K -> K -> bool) (key : X -> K)
    (l : list X) (i j : nat) (x y : X) :
  descending leb key l -> l !! i = Some x -> l !! j = Some y -> (i < j)%nat ->
  leb (key y) (key x) = true.
Proof.
  unfold descending. intros Hs. revert i j.
  induction Hs as [|a l Hl IH Ha]; intros i j Hi Hj Hij; [discriminate|].
  destruct j as [|j]; [lia|]. cbn in Hj.
  destruct i as [|i].
  - cbn in Hi. injection Hi as <-.
    rewrite Forall_forall in Ha. apply Ha. eapply list_elem_of_lookup_2, Hj.
  - cbn in Hi. apply (IH i j); [assumption..|lia].
Qed.

Lemma normalize_stops_raise (stops : list json) (e : exn) :
  normalize_stops stops = Raise e ->
  e = AttributeError /\ Exists (fun st => raw_stop st = false) stops.
Proof.
  unfold normalize_stops.
  destruct (for_each normalize_stop stops) as [normalized|e'] eqn:E; [discriminate|].
  cbn. intros [= ->]. apply for_each_raise in E.
  induction E as [st stops Hst | st stops _ [IH1 IH2]].
  - pose proof (normalize_stop_raw st) as Hr.
    destruct (raw_stop st) eqn:Er; [destruct Hr as [r Hr]; congruence|].
    split; [congruence|]. left. exact Er.
  - split; [exact IH1|]. right. exact IH2.
Qed.

(** A content file that does not exist is an empty collection. *)
Lemma load_travel_stops_missing (fs : filesystem) (content_dir : pystr) :
  fs !! (content_dir ++ py "/travel/stops.json") = None ->
  load_travel_stops fs content_dir = Ok [].
Proof.
  intros Hfs. unfold load_travel_stops. cbv zeta.
  rewrite load_json_cases, Hfs. reflexivity.
Qed.

(** C3. On a list of raw travel stops the normaliser returns; the result
    has one record for each input record (it is a rearrangement of the
    records the loop builds); it is in descending order of the parsed start
    date; and a record whose start date does not parse has the least key
    there is, so whatever stands behind it in the result has that least key
    too. *)
Theorem normalize_stops_sorted (stops : list json) :
  Forall (fun st => raw_stop st = true) stops ->
  let key x := parse_date_ymd (stop_start_date x) in
  let unparsed x := exists e, strptime (stop_start_date x) = Raise e in
  exists normalized out,
    for_each normalize_stop stops = Ok normalized
    /\ normalize_stops stops = Ok out
    /\ out ≡ₚ normalized
    /\ length out = length stops
    /\ descending date_leb key out
    /\ (forall x y, x ∈ out -> y ∈ out -> unparsed x ->
        key x = datetime_min /\ date_leb (key x) (key y) = true)
    /\ (forall i j x y, out !! i = Some x -> out !! j = Some y -> (i < j)%nat ->
        unparsed x -> key y = datetime_min).
Proof.
  intros Hraw key unparsed.
  destruct (for_each_total normalize_stop stops) as [normalized Hn].
  { eapply Forall_impl; [exact Hraw|]. intros st Hst.
    pose proof (normalize_stop_raw st) as Hr. rewrite Hst in Hr. exact Hr. }
  exists normalized, (sort_reverse date_leb key normalized).
  assert (Hmin : forall x, unparsed x -> key x = datetime_min).
  { intros x [e Hx]. unfold key, parse_date_ymd. rewrite Hx. reflexivity. }
  assert (Hdesc : descending date_leb key (sort_reverse date_leb key normalized)).
  { apply sort_reverse_descending; [apply date_leb_total|apply date_leb_trans]. }
  split; [exact Hn|]. split; [unfold normalize_stops; rewrite Hn; reflexivity|].
  split; [apply sort_reverse_perm|]. split.
  { rewrite sort_reverse_length. apply for_each_ok in Hn.
    symmetry. eapply Forall2_length, Hn. }
  split; [exact Hdesc|]. split.
  - intros x y _ _ Hx. split; [apply Hmin, Hx|].
    rewrite (Hmin x Hx). apply datetime_min_least, parse_date_ymd_valid.
  - intros i j x y Hi Hj Hij Hx.
    pose proof (descending_lookup _ _ _ _ _ _ _ Hdesc Hi Hj Hij) as Hle.
    cbv beta in Hle. rewrite (Hmin x Hx) in Hle. symmetry.
    apply date_leb_antisym; [|exact Hle].
    apply datetime_min_least, parse_date_ymd_valid.
Qed.


Lemma normalize_stop_type (d : gmap pystr json) (r : travel_stop) :
  normalize_stop (JDict d) = Ok r ->
  or_strip (field d (py "type")) (py "visited") = Ok (stop_type r).
Proof.
  rewrite normalize_stop_dict.
  destruct (or_strip (field d (py "id")) []); [|discriminate].
  destruct (or_strip (field d (py "place")) []); [|discriminate].
  destruct (or_strip (field d (py "country")) []); [|discriminate].
  destruct (or_strip (field d (py "type")) (py "visited")); [|discriminate].
  cbn. intros [= <-]. reflexivity.
Qed.

(** C6, where the code departs from it.  The default is applied before the
    trimming: a type that is absent, [null] or empty becomes [visited], and
    a string that is not empty is trimmed; so a type of whitespace only is
    trimmed to the empty string and is not replaced by [visited].  The id
    of the same record, trimmed before its default is applied, does fall
    back when it is whitespace only. *)
Theorem stop_type_whitespace_only (d : gmap pystr json) (r : travel_stop) :
  (normalize_stop (JDict d) = Ok r ->
   (truthy (field d (py "type")) = false -> stop_type r = py "visited")
   /\ (forall s, d !! py "type" = Some (JStr s) -> s <> [] -> stop_type r = strip s))
  /\ exists r',
       normalize_stop
         (JDict {[ py "type" := JStr (py "   ");
                   py "id" := JStr (py "   ");
                   py "place" := JStr (py "Rio");
                   py "start_date" := JStr (py "2023-05-01") ]}) = Ok r'
       /\ stop_type r' = []
       /\ stop_id r' = py "rio-2023-05-01".
Proof.
  split.
  - intros Hr. apply normalize_stop_type in Hr. rewrite or_strip_cases in Hr.
    split.
    + intros Hf. rewrite Hf in Hr. injection Hr as <-. reflexivity.
    + intros s Hs Hne. unfold field in Hr. rewrite Hs in Hr.
      destruct s; [congruence|]. cbn in Hr. injection Hr as <-. reflexivity.
  - eexists. split; [reflexivity|]. split; reflexivity.
Qed.

(** ** The portfolio loop *)

Lemma get_strip_dict (d : gmap pystr json) (key : pystr) :
  get_strip (JDict d) key =
  match d !! key with
  | None => Ok []
  | Some (JStr s) => Ok (strip s)
  | Some _ => Raise AttributeError
  end.
Proof.
  unfold get_strip, dict_get. cbn. destruct (d !! key) as [[]|]; reflexivity.
Qed.

Lemma normalize_item_raw (it : json) (r : portfolio_item) :
  normalize_item it = Ok r -> raw_item it = true.
Proof.
  destruct it as [| | | | |l|d]; try discriminate.
  unfold normalize_item, raw_item, text_if_present. rewrite !get_strip_dict.
  destruct (d !! py "type") as [[]|]; try discriminate;
    destruct (d !! py "title") as [[]|]; try discriminate;
    destruct (d !! py "slug") as [[]|]; try discriminate; reflexivity.
Qed.

(** C10. The portfolio normaliser returns only on records whose [type],
    [title] and [slug] are strings where present: an explicit [null] in any
    of the three raises [AttributeError], with no default put in its place.
    The travel normaliser on a record with [null] in its string fields
    returns, with the defaults. *)
Theorem portfolio_null_field_raises (items : list json) :
  (forall out, normalize_items items = Ok out ->
     Forall (fun it => raw_item it = true) items)
  /\ normalize_items [JDict {[ py "type" := JNull ]}] = Raise AttributeError
  /\ normalize_items [JDict {[ py "title" := JNull ]}] = Raise AttributeError
  /\ normalize_items [JDict {[ py "slug" := JNull ]}] = Raise AttributeError
  /\ exists r,
       normalize_stops
         [JDict {[ py "id" := JNull; py "place" := JNull; py "country" := JNull;
                   py "type" := JNull; py "notes_md" := JNull ]}] = Ok [r]
       /\ stop_type r = py "visited"
       /\ stop_place r = [] /\ stop_country r = [] /\ stop_id r = py "-"
       /\ stop_notes_md r = JStr [].
Proof.
  split; [|split; [|split; [|split]]]; try reflexivity.
  - intros out Hout. unfold normalize_items in Hout.
    destruct (for_each normalize_item items) as [normalized|e] eqn:E; [|discriminate].
    apply for_each_ok in E. clear Hout.
    induction E as [|it r its rs Hr _ IH]; constructor; [|exact IH].
    eapply normalize_item_raw, Hr.
  - eexists. split; [reflexivity|]. repeat split; reflexivity.
Qed.

End TravelFacts.

Lemma normalize_stops_sorted_witness :
  let stops :=
    [JDict {[ py "place" := JStr (py "Rio"); py "start_date" := JStr (py "2023-05-01") ]};
     JDict {[ py "id" := JNull; py "start_date" := JStr (py "soon") ]};
     JDict {[ py "type" := JStr (py " lived "); py "start_date" := JStr (py "2024-1-5") ]}] in
  Forall (fun st => raw_stop st = true) stops
  /\ exists out,
       @normalize_stops plain_runtime stops = Ok out
       /\ map stop_start_date out = [py "2024-1-5"; py "2023-05-01"; py "soon"]
       /\ descending date_leb
            (fun x => @parse_date_ymd plain_runtime (stop_start_date x)) out.
Proof.
  intros stops.
  assert (Hraw : Forall (fun st => raw_stop st = true) stops)
    by (repeat constructor).
  split; [exact Hraw|].
  destruct (@normalize_stops_sorted plain_runtime stops Hraw)
    as (normalized & out & _ & Hout & _ & _ & Hdesc & _).
  exists out. split; [exact Hout|]. split; [|exact Hdesc].
  pose proof Hout as E. vm_compute in E. injection E as <-. reflexivity.
Defined.

(** * More about the access gate *)

Section GateMore.
Import Gate.

(** X1. Through the gate and back.  An anonymous request for a protected page
    is sent to the login page with the page's path; posting the right
    password with that path as [next] answers with a redirect to the path,
    and the session then passes the guard. *)
Theorem gate_round_trip
    (environ : gmap pystr pystr) (view : request -> client -> client * response)
    (visit attempt : request) (c : client) :
  state c = Anonymous ->
  method attempt = POST ->
  get_or environ (py "SCRAPBOOK_PASSWORD") [] <> [] ->
  get_or (form attempt) (py "password") [] = get_or environ (py "SCRAPBOOK_PASSWORD") [] ->
  form attempt !! py "next" = Some (path visit) ->
  path visit <> [] ->
  let c' := fst (login environ attempt c) in
  login_required view visit c
  = (c, Redirect (UrlFor (py "login") (Some (path visit))) 302)
  /\ snd (login environ attempt c) = Redirect (Literal (path visit)) 303
  /\ flashed c' = flashed c
  /\ login_required view visit c' = view visit c'.
Proof.
  intros Ha Hm Hne Hpw Hnext Hp c'.
  apply state_anonymous in Ha.
  assert (Hl : login environ attempt c
               = ({| session := <[scrapbook_authed := JBool true]> (session c);
                     flashed := flashed c |},
                  Redirect (Literal (path visit)) 303)).
  { unfold login. rewrite Ha, Hm, Hpw.
    apply str_truthy_true in Hne. rewrite Hne.
    unfold str_eqb. rewrite bool_decide_eq_true_2 by reflexivity. cbn [andb].
    rewrite Hnext. destruct (path visit); [congruence|reflexivity]. }
  unfold c'. rewrite Hl. cbn [fst snd flashed].
  split; [unfold login_required; rewrite Ha; reflexivity|].
  split; [reflexivity|]. split; [reflexivity|].
  unfold login_required. rewrite authed_after_grant. reflexivity.
Qed.

Lemma gate_round_trip_witness :
  let environ : gmap pystr pystr := {[ py "SCRAPBOOK_PASSWORD" := py "Secret" ]} in
  let visit := {| method := GET; path := py "/scrapbook"; form := ∅ |} in
  let attempt := {| method := POST; path := py "/login";
                    form := {[ py "password" := py "Secret";
                               py "next" := py "/scrapbook" ]} |} in
  let c := {| session := ∅; flashed := [] |} in
  let view := fun (_ : request) (c : client) =>
                (c, Render (py "scrapbook.html") (py "Scrapbook")) in
  snd (login environ attempt c) = Redirect (Literal (py "/scrapbook")) 303
  /\ login_required view visit (fst (login environ attempt c))
     = view visit (fst (login environ attempt c)).
Proof.
  intros environ visit attempt c view.
  destruct (gate_round_trip environ view visit attempt c) as (_ & H2 & _ & H4);
    try reflexivity; try discriminate.
  split; [exact H2|exact H4].
Defined.

(** X2. Logging out closes the gate and touches nothing else: whatever the
    session held, the next protected request is sent to the login page,
    every other key of the session keeps its value, and the flashed
    messages stay queued. *)
Theorem logout_closes_the_gate
    (view : request -> client -> client * response) (req : request) (c : client) :
  let c' := fst (logout c) in
  login_required view req c'
  = (c', Redirect (UrlFor (py "login") (Some (path req))) 302)
  /\ (forall key, key <> scrapbook_authed -> session c' !! key = session c !! key)
  /\ flashed c' = flashed c
  /\ snd (logout c) = Redirect (UrlFor (py "home") None) 302.
Proof.
  intros c'. split; [|split; [|split; reflexivity]].
  - unfold login_required, c', authed, session_get, logout. cbn [fst session].
    rewrite lookup_delete_eq. reflexivity.
  - intros key Hk. unfold c', logout. cbn. apply lookup_delete_ne.
    intros E. apply Hk. symmetry. exact E.
Qed.


End GateMore.

(** * More about the date utility *)

Lemma date_leb_false (a b : date) :
  date_leb b a = false <->
  year a < year b
  \/ (year a = year b
      /\ (month a < month b \/ (month a = month b /\ day a < day b))).
Proof.
  unfold date_leb.
  destruct (Z.ltb_spec (year b) (year a)), (Z.eqb_spec (year b) (year a)),
    (Z.ltb_spec (month b) (month a)), (Z.eqb_spec (month b) (month a)),
    (Z.leb_spec (day b) (day a)); cbn [andb orb]; split; intros; try lia;
    try discriminate; reflexivity.
Qed.

Lemma toordinal_lt (a b : date) :
  valid_date a -> valid_date b -> date_leb b a = false ->
  toordinal a < toordinal b.
Proof.
  intros Ha Hb Hlt. apply date_leb_false in Hlt.
  pose proof (day_of_year_bounds a Ha) as Da.
  pose proof (day_of_year_bounds b Hb) as Db.
  unfold toordinal, _ymd2ord.
  destruct Hlt as [Hy | (Hy & [Hm | (Hm & Hd)])].
  - pose proof (days_before_year_next (year a)) as Hn.
    pose proof (days_before_year_mono (year a + 1) (year b)) as Hmono. lia.
  - destruct Ha as (_ & Ha1 & Ha2), Hb as (_ & Hb1 & Hb2).
    pose proof (days_before_month_next (year a) (month a) (month b) Ha1 Hb1 Hm).
    rewrite <- Hy. lia.
  - rewrite Hy, Hm. lia.
Qed.

Lemma toordinal_inj (a b : date) :
  valid_date a -> valid_date b -> toordinal a = toordinal b -> a = b.
Proof.
  intros Ha Hb E.
  destruct (date_leb a b) eqn:Eab; [|pose proof (toordinal_lt b a Hb Ha Eab); lia].
  destruct (date_leb b a) eqn:Eba; [|pose proof (toordinal_lt a b Ha Hb Eba); lia].
  apply date_leb_antisym; assumption.
Qed.

Lemma toordinal_bounds (a : date) :
  valid_date a -> 1 <= toordinal a <= _MAXORDINAL.
Proof.
  intros Ha. pose proof (day_of_year_bounds a Ha) as Da.
  pose proof (days_before_year_next (year a)) as Hn.
  destruct Ha as ((Hy1 & Hy2) & _). unfold MINYEAR, MAXYEAR in *.
  pose proof (days_before_year_mono 1 (year a) Hy1) as H1.
  pose proof (days_before_year_mono (year a + 1) 10000) as H2.
  change (_days_before_year 1) with 0 in H1.
  change (_days_before_year 10000) with 3652059 in H2.
  unfold toordinal, _ymd2ord, _MAXORDINAL. lia.
Qed.

Section DateMore.
Context `{Runtime}.

Lemma days_between_parsed (s e : pystr) (a b : date) :
  strptime s = Ok a -> strptime e = Ok b ->
  days_between s e = if date_leb a b then toordinal b - toordinal a + 1 else 0.
Proof. intros Hs He. unfold days_between. rewrite Hs, He. reflexivity. Qed.

(** X4. A span of one day means the same day: for two strings that parse,
    [days_between] is 1 exactly when they name the same date, however each
    is spelled. *)
Theorem days_between_one_iff_same_day (s e : pystr) (a b : date) :
  strptime s = Ok a -> strptime e = Ok b ->
  (days_between s e = 1 <-> a = b).
Proof.
  intros Hs He. rewrite (days_between_parsed s e a b Hs He).
  pose proof (strptime_valid _ _ Hs) as Va. pose proof (strptime_valid _ _ He) as Vb.
  split.
  - destruct (date_leb a b); [|discriminate].
    intros E. apply toordinal_inj; [assumption..|lia].
  - intros <-. destruct (date_leb_total a a) as [E|E]; rewrite E; lia.
Qed.

(** X5. Spans add up along the calendar: for start <= middle <= end, the span
    from start to end is the two partial spans less the day counted
    twice. *)
Theorem days_between_compose (x y z : pystr) (a b c : date) :
  strptime x = Ok a -> strptime y = Ok b -> strptime z = Ok c ->
  date_leb a b = true -> date_leb b c = true ->
  days_between x z = days_between x y + days_between y z - 1.
Proof.
  intros Hx Hy Hz Hab Hbc.
  rewrite (days_between_parsed x z a c Hx Hz), (days_between_parsed x y a b Hx Hy),
    (days_between_parsed y z b c Hy Hz), Hab, Hbc,
    (date_leb_trans a b c Hab Hbc). lia.
Qed.

Lemma days_between_range (s e : pystr) :
  0 <= days_between s e <= _MAXORDINAL.
Proof.
  unfold days_between.
  destruct (strptime s) as [a|] eqn:Hs; [|cbn; unfold _MAXORDINAL; lia].
  destruct (strptime e) as [b|] eqn:He; [|cbn; unfold _MAXORDINAL; lia].
  cbn. pose proof (toordinal_bounds a (strptime_valid _ _ Hs)).
  pose proof (toordinal_bounds b (strptime_valid _ _ He)).
  destruct (date_leb a b) eqn:E; [|unfold _MAXORDINAL; lia].
  pose proof (toordinal_mono a b (strptime_valid _ _ Hs) (strptime_valid _ _ He) E).
  lia.
Qed.

(** X6. The day count is never negative and never more than the number of days
    of the calendar, whatever the two strings are; and it is positive only
    when both parse and the end is not before the start. *)
Theorem days_between_bounds (s e : pystr) :
  0 <= days_between s e <= _MAXORDINAL
  /\ (0 < days_between s e ->
      exists a b, strptime s = Ok a /\ strptime e = Ok b /\ date_leb a b = true).
Proof.
  split; [apply days_between_range|].
  unfold days_between.
  destruct (strptime s) as [a|]; [|cbn; lia].
  destruct (strptime e) as [b|]; [|cbn; lia].
  cbn. destruct (date_leb a b) eqn:E; [eauto|lia].
Qed.


(** ** What [strptime] can accept *)








End DateMore.

(** * More about trimming and collapsing *)



Lemma lstrip_rstrip (s : pystr) : lstrip (rstrip (lstrip s)) = rstrip (lstrip s).
Proof.
  pose proof (lstrip_head s) as H. destruct (lstrip s) as [|c r]; [reflexivity|].
  rewrite rstrip_cons_nonspace by exact H. apply lstrip_nonspace, H.
Qed.


Lemma lstrip_suffix (s : pystr) : exists p, s = p ++ lstrip s.
Proof.
  induction s as [|c s [p IH]]; [exists []; reflexivity|].
  simpl. destruct (isspace c); [|exists []; reflexivity].
  exists (c :: p). simpl. f_equal. exact IH.
Qed.

Lemma Forall_lstrip (P : Z -> Prop) (s : pystr) : Forall P s -> Forall P (lstrip s).
Proof.
  intros H. destruct (lstrip_suffix s) as [p E]. rewrite E in H.
  apply Forall_app in H. tauto.
Qed.

Lemma Forall_strip (P : Z -> Prop) (s : pystr) : Forall P s -> Forall P (strip s).
Proof.
  intros H. unfold strip, rstrip.
  apply Forall_rev, Forall_lstrip, Forall_rev, Forall_lstrip, H.
Qed.

Lemma squeeze_ws_plain (s : pystr) : only_plain_spaces (squeeze_ws s).
Proof.
  unfold only_plain_spaces. induction s as [|c s IH]; [constructor|].
  cbn [squeeze_ws]. destruct (isspace c) eqn:Hc.
  - destruct s as [|c' s']; [repeat constructor|].
    destruct (isspace c'); [exact IH|constructor; [reflexivity|exact IH]].
  - constructor; [congruence|exact IH].
Qed.

Lemma collapse_ws_plain (s : pystr) : only_plain_spaces (collapse_ws s).
Proof. apply Forall_strip, squeeze_ws_plain. Qed.

Lemma lstrip_take (s : pystr) (n : nat) : lstrip s = s -> lstrip (take n s ++ [ellipsis]) = take n s ++ [ellipsis].
Proof.
  intros E. destruct s as [|c s]; [destruct n; reflexivity|].
  destruct n; [reflexivity|]. cbn [take app].
  simpl in E. destruct (isspace c) eqn:Hc; [|apply lstrip_nonspace, Hc].
  exfalso. pose proof (lstrip_suffix s) as [p Hp].
  apply (f_equal length) in E. rewrite Hp in E at 2. cbn in E.
  rewrite length_app in E. lia.
Qed.

(** What every excerpt looks like, for a maximum of at least one character:
    at most [max_len] characters, no whitespace at the start, and no
    whitespace character but the plain space (no newline, no tab). *)
Lemma excerpt_of_invariants (text : pystr) (max_len : Z) :
  1 <= max_len ->
  Z.of_nat (length (excerpt_of text max_len)) <= max_len
  /\ lstrip (excerpt_of text max_len) = excerpt_of text max_len
  /\ only_plain_spaces (excerpt_of text max_len).
Proof.
  intros Hm. rewrite excerpt_of_collapse.
  assert (Hl : lstrip (collapse_ws text) = collapse_ws text).
  { unfold collapse_ws, strip. apply lstrip_rstrip. }
  destruct (Z.ltb_spec max_len (Z.of_nat (length (collapse_ws text)))) as [Hlt|Hge].
  - rewrite slice_to_take by lia. split; [|split].
    + rewrite length_app, length_take. cbn. lia.
    + apply lstrip_take, Hl.
    + unfold only_plain_spaces. apply Forall_app. split.
      * apply Forall_take, collapse_ws_plain.
      * repeat constructor. discriminate.
  - split; [lia|]. split; [exact Hl|apply collapse_ws_plain].
Qed.

(** * More about the normalisers *)

Section NormaliserMore.
Context `{Runtime}.



(** X9. The travel normaliser returns exactly on lists of raw stops, and when
    it raises it raises [AttributeError]. *)
Theorem normalize_stops_returns_iff (stops : list json) :
  ((exists out, normalize_stops stops = Ok out)
   <-> Forall (fun st => raw_stop st = true) stops)
  /\ (forall e, normalize_stops stops = Raise e -> e = AttributeError).
Proof.
  split; [split|].
  - intros [out Hout]. apply Forall_forall. intros st Hst.
    destruct (raw_stop st) eqn:Er; [reflexivity|exfalso].
    unfold normalize_stops in Hout.
    destruct (for_each normalize_stop stops) as [normalized|] eqn:E; [|discriminate].
    apply for_each_ok in E.
    apply list_elem_of_lookup in Hst as [i Hi].
    destruct (Forall2_lookup_l _ _ _ _ _ E Hi) as (r & _ & Hr).
    pose proof (normalize_stop_raw st) as Hraw. rewrite Er in Hraw. congruence.
  - intros Hraw. destruct (for_each_total normalize_stop stops) as [normalized Hn].
    { eapply Forall_impl; [exact Hraw|]. intros st Hst.
      pose proof (normalize_stop_raw st) as Hr. rewrite Hst in Hr. exact Hr. }
    unfold normalize_stops. rewrite Hn. cbn. eauto.
  - intros e He. apply normalize_stops_raise in He. tauto.
Qed.

(** X10. The sort is stable: among the stops whose start dates parse to the same
    day, and among those whose start dates do not parse, the order of the
    file is kept. *)
Theorem normalize_stops_stable (stops : list json)
    (normalized out : list travel_stop) (k : date) :
  for_each normalize_stop stops = Ok normalized ->
  normalize_stops stops = Ok out ->
  let key x := parse_date_ymd (stop_start_date x) in
  List.filter (same_key date_leb key k) out
  = List.filter (same_key date_leb key k) normalized.
Proof.
  intros Hn Hout key. unfold normalize_stops in Hout. rewrite Hn in Hout.
  cbn in Hout. injection Hout as <-.
  apply sort_reverse_stable. apply date_leb_trans.
Qed.



(** ** The portfolio loop *)

Lemma plain_excerpt_cases (v : json) (max_len : Z) :
  plain_excerpt v max_len =
  if truthy v
  then match v with JStr s => Ok (excerpt_of s max_len) | _ => Raise AttributeError end
  else Ok [].
Proof.
  unfold plain_excerpt. destruct (truthy v) eqn:E; [|reflexivity].
  destruct v; reflexivity.
Qed.

Lemma plain_excerpt_text (d : gmap pystr json) (key : pystr) (max_len : Z) :
  let v := match d !! key with Some x => x | None => JStr [] end in
  if text_or_blank d key
  then exists s, plain_excerpt v max_len = Ok s
                 /\ (s = [] \/ exists text, s = excerpt_of text max_len)
  else plain_excerpt v max_len = Raise AttributeError.
Proof.
  cbv zeta. unfold text_or_blank. rewrite plain_excerpt_cases.
  destruct (d !! key) as [v|]; [|cbn; eauto].
  destruct v; cbn; try (destruct (negb _) eqn:E; [rewrite negb_true_iff in E|rewrite negb_false_iff in E]; rewrite E); eauto.
  destruct s; eauto.
Qed.

Lemma get_strip_text (d : gmap pystr json) (key : pystr) :
  if text_if_present d key then exists s, get_strip (JDict d) key = Ok s
  else get_strip (JDict d) key = Raise AttributeError.
Proof.
  rewrite get_strip_dict. unfold text_if_present.
  destruct (d !! key) as [[]|]; eauto.
Qed.

Lemma normalize_item_dict (d : gmap pystr json) :
  normalize_item (JDict d) =
  type ← get_strip (JDict d) (py "type");
  title ← get_strip (JDict d) (py "title");
  slug ← get_strip (JDict d) (py "slug");
  excerpt ← plain_excerpt
    (match d !! py "description_md" with Some x => x | None => JStr [] end) 120;
  Ok {| item_type := type;
        item_title := title;
        item_slug := slug;
        item_year := field d (py "year");
        item_tags := match d !! py "tags" with Some x => x | None => JList [] end;
        item_cover_image :=
          match d !! py "cover_image" with Some x => x | None => JStr [] end;
        item_description_md :=
          match d !! py "description_md" with Some x => x | None => JStr [] end;
        item_excerpt := excerpt;
        item_images := match d !! py "images" with Some x => x | None => JList [] end;
        item_video_url :=
          match d !! py "video_url" with Some x => x | None => JStr [] end;
        item_credits :=
          match d !! py "credits" with Some x => x | None => JList [] end |}.
Proof.
  unfold normalize_item.
  destruct (get_strip (JDict d) (py "type")); [|reflexivity].
  destruct (get_strip (JDict d) (py "title")); [|reflexivity].
  destruct (get_strip (JDict d) (py "slug")); [|reflexivity].
  reflexivity.
Qed.

(** X12. The loop body of the portfolio normaliser returns exactly on objects
    whose [type], [title] and [slug] are strings where present and whose
    description is a string when it holds anything; every failure is an
    [AttributeError].  The excerpt of a record it returns has at most 120
    characters, starts with no whitespace and holds no whitespace but the
    plain space. *)
Theorem normalize_item_returns_iff (it : json) :
  ((exists r, normalize_item it = Ok r)
   <-> exists d, it = JDict d /\ raw_item it = true
                 /\ text_or_blank d (py "description_md") = true)
  /\ (forall e, normalize_item it = Raise e -> e = AttributeError)
  /\ (forall r, normalize_item it = Ok r ->
      (length (item_excerpt r) <= 120)%nat
      /\ lstrip (item_excerpt r) = item_excerpt r
      /\ only_plain_spaces (item_excerpt r)).
Proof.
  assert (Hbad : normalize_item it = Raise AttributeError ->
    ~ (exists d, it = JDict d /\ raw_item it = true
                 /\ text_or_blank d (py "description_md") = true) ->
    ((exists r, normalize_item it = Ok r)
     <-> exists d, it = JDict d /\ raw_item it = true
                   /\ text_or_blank d (py "description_md") = true)
    /\ (forall e, normalize_item it = Raise e -> e = AttributeError)
    /\ (forall r, normalize_item it = Ok r ->
        (length (item_excerpt r) <= 120)%nat
        /\ lstrip (item_excerpt r) = item_excerpt r
        /\ only_plain_spaces (item_excerpt r))).
  { intros E Hn. rewrite E. split; [split; [intros [r Hr]; discriminate|tauto]|].
    split; [intros e [= <-]; reflexivity|intros r Hr; discriminate]. }
  destruct it as [| | | | |l|d];
    try (apply Hbad; [reflexivity|intros (d' & Hd & _); discriminate]).
  assert (Hd : forall (P : gmap pystr json -> Prop),
             (exists d', JDict d = JDict d' /\ P d') <-> P d).
  { intros P. split; [intros (d' & [= <-] & HP); exact HP|eauto]. }
  pose proof (get_strip_text d (py "type")) as H1.
  pose proof (get_strip_text d (py "title")) as H2.
  pose proof (get_strip_text d (py "slug")) as H3.
  pose proof (plain_excerpt_text d (py "description_md") 120) as H4. cbv zeta in H4.
  unfold raw_item in *.
  destruct (text_if_present d (py "type"));
    [destruct H1 as [type E1]
    |apply Hbad; [rewrite normalize_item_dict, H1; reflexivity
                 |intros (d' & [= <-] & Hr & _); discriminate]].
  destruct (text_if_present d (py "title"));
    [destruct H2 as [title E2]
    |apply Hbad; [rewrite normalize_item_dict, E1, H2; reflexivity
                 |intros (d' & [= <-] & Hr & _); discriminate]].
  destruct (text_if_present d (py "slug"));
    [destruct H3 as [slug E3]
    |apply Hbad; [rewrite normalize_item_dict, E1, E2, H3; reflexivity
                 |intros (d' & [= <-] & Hr & _); discriminate]].
  destruct (text_or_blank d (py "description_md")) eqn:E5;
    [destruct H4 as (excerpt & E4 & Hex)
    |apply Hbad; [rewrite normalize_item_dict, E1, E2, E3, H4; reflexivity
                 |intros (d' & [= <-] & _ & Hr); congruence]].
  rewrite normalize_item_dict, E1, E2, E3, E4. cbn [mbind result_bind].
  split; [split; [intros _; exists d; auto|intros _; eauto]|].
  split; [intros e He; discriminate|].
  intros r [= <-]. cbn [item_excerpt].
  destruct Hex as [-> | [text ->]].
  - split; [cbn; lia|]. split; [reflexivity|constructor].
  - destruct (excerpt_of_invariants text 120) as (L1 & L2 & L3); [lia|].
    split; [lia|]. split; assumption.
Qed.

End NormaliserMore.

(** * The blog *)

Lemma str_leb_total (a b : pystr) : str_leb a b = true \/ str_leb b a = true.
Proof.
  revert b. induction a as [|x a IH]; intros [|y b]; cbn; auto.
  destruct (Z.ltb_spec x y), (Z.ltb_spec y x), (Z.eqb_spec x y), (Z.eqb_spec y x);
    cbn; auto; lia.
Qed.

Lemma str_leb_trans (a b c : pystr) :
  str_leb a b = true -> str_leb b c = true -> str_leb a c = true.
Proof.
  revert b c. induction a as [|x a IH]; intros [|y b] [|z c]; cbn; auto; try discriminate.
  destruct (Z.ltb_spec x y), (Z.ltb_spec y z), (Z.ltb_spec x z),
    (Z.eqb_spec x y), (Z.eqb_spec y z), (Z.eqb_spec x z); cbn; auto; try lia;
    try discriminate. apply IH.
Qed.

Lemma str_leb_antisym (a b : pystr) :
  str_leb a b = true -> str_leb b a = true -> a = b.
Proof.
  revert b. induction a as [|x a IH]; intros [|y b]; cbn; auto; try discriminate.
  destruct (Z.ltb_spec x y), (Z.ltb_spec y x), (Z.eqb_spec x y), (Z.eqb_spec y x);
    cbn; try lia; try discriminate. intros. subst. f_equal. auto.
Qed.

Section BlogFacts.
Context `{Runtime}.

Lemma blog_loop_ok (files : list (pystr * result document)) :
  Forall (fun file => exists post, snd file = Ok post) files ->
  blog_loop files = Ok (published files).
Proof.
  induction 1 as [|[name loaded] files [post Hp] _ IH]; [reflexivity|].
  cbn in Hp. subst loaded. cbn. rewrite IH.
  destruct (is_draft post); reflexivity.
Qed.

Lemma blog_loop_raise (files : list (pystr * result document)) (e : exn) :
  blog_loop files = Raise e -> exists name, (name, Raise e) ∈ files.
Proof.
  induction files as [|[name loaded] files IH]; [discriminate|].
  cbn. destruct loaded as [post|e']; cbn.
  - intros E. destruct (IH) as [n Hn].
    + destruct (is_draft post); [exact E|].
      destruct (blog_loop files); [discriminate|exact E].
    + exists n. right. exact Hn.
  - intros [= ->]. exists name. left.
Qed.

Lemma blog_loop_result (files : list (pystr * result document)) :
  (exists posts, blog_loop files = Ok posts)
  \/ exists name e, blog_loop files = Raise e /\ (name, Raise e) ∈ files.
Proof.
  destruct (blog_loop files) as [posts|e] eqn:E; [left; eauto|right].
  destruct (blog_loop_raise files e E) as [name Hn]. eauto.
Qed.

Lemma blog_loop_ok_inv (files : list (pystr * result document)) (posts : list blog_post) :
  blog_loop files = Ok posts ->
  Forall (fun file => exists post, snd file = Ok post) files.
Proof.
  revert posts. induction files as [|[name loaded] files IH]; intros posts; [constructor|].
  cbn. destruct loaded as [post|e']; cbn; [|discriminate].
  intros E. constructor; [cbn; eauto|].
  destruct (is_draft post); [eapply IH, E|].
  destruct (blog_loop files) as [ps|]; [|discriminate]. eapply IH. reflexivity.
Qed.

Lemma sorted_md_files_perm (dir : gmap pystr (result document)) :
  sorted_md_files dir
  ≡ₚ List.filter (fun entry => glob_md (fst entry)) (map_to_list dir).
Proof. apply sort_reverse_perm. Qed.

Lemma elem_of_sorted_md_files (dir : gmap pystr (result document))
    (name : pystr) (loaded : result document) :
  (name, loaded) ∈ sorted_md_files dir
  <-> glob_md name = true /\ dir !! name = Some loaded.
Proof.
  rewrite sorted_md_files_perm, list_elem_of_In, filter_In, <- list_elem_of_In,
    elem_of_map_to_list. cbn. tauto.
Qed.

Lemma elem_of_published (files : list (pystr * result document)) (p : blog_post) :
  p ∈ published files
  <-> exists name post, (name, Ok post) ∈ files /\ is_draft post = false
                        /\ p = make_post name post.
Proof.
  unfold published. rewrite list_elem_of_In, in_flat_map. split.
  - intros ([name loaded] & Hin & Hp). cbn in Hp.
    destruct loaded as [post|]; [|destruct Hp].
    destruct (is_draft post) eqn:Ed; [destruct Hp|].
    destruct Hp as [<- | []]. exists name, post.
    rewrite list_elem_of_In. auto.
  - intros (name & post & Hin & Hd & ->). exists (name, Ok post).
    rewrite <- list_elem_of_In. split; [exact Hin|]. cbn. rewrite Hd. left. reflexivity.
Qed.


(** X15. The blog listing.  When every [.md] entry of the directory loads, the
    loader returns; a post is listed exactly when it is built from a [.md]
    entry that is not a draft (entries of other names are not even read);
    and the list is in descending order of the parsed date. *)
Theorem load_blog_posts_listing (dir : gmap pystr (result document)) :
  (forall name e, glob_md name = true -> dir !! name <> Some (Raise e)) ->
  exists out,
    load_blog_posts (Some dir) = Ok out
    /\ (forall p, p ∈ out <->
          exists name post, glob_md name = true /\ dir !! name = Some (Ok post)
                            /\ is_draft post = false /\ p = make_post name post)
    /\ descending date_leb bp_date_sort out
    /\ (forall p, p ∈ out -> bp_date_sort p = parse_date_ymd (bp_date p)).
Proof.
  intros Hload.
  assert (Hok : blog_loop (sorted_md_files dir) = Ok (published (sorted_md_files dir))).
  { apply blog_loop_ok, Forall_forall. intros [name loaded] Hin.
    apply elem_of_sorted_md_files in Hin as [Hg Hd]. cbn.
    destruct loaded as [post|e]; [eauto|]. exfalso. eapply Hload; eassumption. }
  eexists. split; [cbn; rewrite Hok; reflexivity|].
  assert (Hmem : forall p,
    p ∈ sort_reverse date_leb bp_date_sort (published (sorted_md_files dir)) <->
    exists name post, glob_md name = true /\ dir !! name = Some (Ok post)
                      /\ is_draft post = false /\ p = make_post name post).
  { intros p. rewrite sort_reverse_perm, elem_of_published. split.
    - intros (name & post & Hin & Hd & ->).
      apply elem_of_sorted_md_files in Hin as [Hg Hl]. eauto 8.
    - intros (name & post & Hg & Hl & Hd & ->). exists name, post.
      rewrite elem_of_sorted_md_files. auto. }
  split; [exact Hmem|]. split.
  - apply sort_reverse_descending; [apply date_leb_total|apply date_leb_trans].
  - intros p Hp. apply Hmem in Hp as (name & post & _ & _ & _ & ->). reflexivity.
Qed.

(** X16. When the blog fails.  With no blog directory the list is empty.  The
    loader raises exactly when some [.md] entry of the directory does not
    load (be it a draft or not), and what it raises is the exception of
    such an entry. *)
Theorem load_blog_posts_failure (dir : gmap pystr (result document)) :
  load_blog_posts None = Ok []
  /\ (forall e, load_blog_posts (Some dir) = Raise e ->
      exists name, glob_md name = true /\ dir !! name = Some (Raise e))
  /\ ((exists e, load_blog_posts (Some dir) = Raise e)
      <-> exists name e, glob_md name = true /\ dir !! name = Some (Raise e)).
Proof.
  assert (Hr : forall e, load_blog_posts (Some dir) = Raise e ->
               exists name, glob_md name = true /\ dir !! name = Some (Raise e)).
  { intros e. cbn. destruct (blog_loop (sorted_md_files dir)) as [posts|e'] eqn:E;
      [discriminate|]. cbn. intros [= ->].
    apply blog_loop_raise in E as [name Hn]. exists name.
    apply elem_of_sorted_md_files, Hn. }
  split; [reflexivity|]. split; [exact Hr|]. split.
  - intros [e He]. destruct (Hr e He) as [name Hn]. eauto.
  - intros (name & e & Hg & Hd). cbn.
    destruct (blog_loop (sorted_md_files dir)) as [posts|e'] eqn:E; [|cbn; eauto].
    exfalso. apply blog_loop_ok_inv in E. rewrite Forall_forall in E.
    destruct (E (name, Raise e)) as [post Hp]; [|discriminate].
    apply elem_of_sorted_md_files. auto.
Qed.

(** X17. Posts of one day.  The files are read in descending order of name and
    the sort by date is stable, so the posts whose dates parse to the same
    day (and those without a date that parses) stay in descending order of
    file name. *)
Theorem load_blog_posts_ties (dir : gmap pystr (result document))
    (out : list blog_post) (k : date) :
  load_blog_posts (Some dir) = Ok out ->
  let files := sorted_md_files dir in
  descending str_leb fst files
  /\ List.filter (same_key date_leb bp_date_sort k) out
     = List.filter (same_key date_leb bp_date_sort k) (published files).
Proof.
  intros Hout files. split.
  - apply sort_reverse_descending; [apply str_leb_total|apply str_leb_trans].
  - cbn in Hout. fold files in Hout.
    destruct (blog_loop files) as [posts|] eqn:E; [|discriminate].
    cbn in Hout. injection Hout as <-.
    rewrite (blog_loop_ok files) in E by (eapply blog_loop_ok_inv, E).
    injection E as <-. apply sort_reverse_stable, date_leb_trans.
Qed.

(** X19. The page of one post shows no draft: what [blog_post] finds for a slug
    is a post with that slug, built from a [.md] entry that is not a
    draft. *)
Theorem blog_post_view_found (blog_dir : option (gmap pystr (result document)))
    (slug : pystr) (p : blog_post) :
  blog_post_view blog_dir slug = Ok (Some p) ->
  bp_slug p = JStr slug
  /\ exists dir name post,
       blog_dir = Some dir /\ glob_md name = true /\ dir !! name = Some (Ok post)
       /\ is_draft post = false /\ p = make_post name post.
Proof.
  unfold blog_post_view. destruct blog_dir as [dir|]; [|discriminate].
  cbn [load_blog_posts].
  destruct (blog_loop (sorted_md_files dir)) as [posts|] eqn:E; [|discriminate].
  cbn. intros [= Hf]. apply find_some in Hf as [Hin Hs]. split.
  - unfold has_slug in Hs. destruct (bp_slug p); try discriminate.
    apply bool_decide_eq_true in Hs. congruence.
  - rewrite (blog_loop_ok _) in E by (eapply blog_loop_ok_inv, E).
    injection E as <-. apply list_elem_of_In in Hin.
    rewrite sort_reverse_perm, elem_of_published in Hin.
    destruct Hin as (name & post & Hin & Hd & ->).
    apply elem_of_sorted_md_files in Hin as [Hg Hl].
    exists dir, name, post. auto.
Qed.

End BlogFacts.

(** * File names *)

Lemma rfind_from_app (c i found : Z) (a b : pystr) :
  rfind_from c i found (a ++ b)
  = rfind_from c (i + Z.of_nat (length a)) (rfind_from c i found a) b.
Proof.
  revert i found. induction a as [|x a IH]; intros i found.
  - cbn. f_equal. lia.
  - cbn [app rfind_from length]. rewrite IH. f_equal. lia.
Qed.

Lemma path_stem_md (stem : pystr) :
  path_stem (stem ++ py ".md") = match stem with [] => py ".md" | _ => stem end.
Proof.
  unfold path_stem, rfind. rewrite rfind_from_app. cbn [py]. 
  change (rfind_from dot (0 + Z.of_nat (length stem)) (rfind_from dot 0 (-1) stem) (py ".md"))
    with (0 + Z.of_nat (length stem)).
  rewrite length_app. change (length (py ".md")) with 3%nat.
  destruct stem as [|c stem]; [reflexivity|].
  destruct (Z.ltb_spec 0 (0 + Z.of_nat (length (c :: stem)))); [|cbn in *; lia].
  destruct (Z.ltb_spec (0 + Z.of_nat (length (c :: stem)))
              (Z.of_nat (length (c :: stem) + 3) - 1)); [|lia].
  cbn [andb]. rewrite slice_to_take by (rewrite length_app; lia).
  replace (Z.to_nat (0 + Z.of_nat (length (c :: stem)))) with (length (c :: stem)) by lia.
  apply take_app_length.
Qed.

Section TitleFacts.
Context `{Runtime}.

(** X18. The title of a post.  A title in the front matter that Python counts
    as true is used as it is; otherwise the title is the file name without
    its last suffix, which for [stem.md] is [stem] whatever dots it holds
    (and, for the file named [.md], the whole name). *)
Theorem title_falls_back_to_stem (stem : pystr) (post : document) :
  let title := field (metadata post) (py "title") in
  bp_title (make_post (stem ++ py ".md") post)
  = if truthy title then title
    else JStr (match stem with [] => py ".md" | _ => stem end).
Proof.
  cbv zeta. unfold make_post. cbn [bp_title]. unfold py_or.
  rewrite path_stem_md. reflexivity.
Qed.

End TitleFacts.

(** * Slugs and directories *)

Lemma split_from_budget0 (sep w s : pystr) : split_from sep 0 0 w s = [w ++ s].
Proof.
  revert w. induction s as [|c s IH]; intros w; cbn.
  - rewrite app_nil_r. reflexivity.
  - rewrite IH, <- app_assoc. reflexivity.
Qed.

Lemma split_from_first (c : Z) (n : nat) (w a rest : pystr) :
  c ∉ a ->
  split_from [c] (S n) 0 w (a ++ c :: rest)
  = (w ++ a) :: split_from [c] n 0 [] rest.
Proof.
  revert w. induction a as [|x a IH]; intros w Hc.
  - cbn [app split_from starts_with]. rewrite Z.eqb_refl, app_nil_r. reflexivity.
  - apply not_elem_of_cons in Hc as [Hx Ha].
    cbn [app split_from starts_with]. rewrite andb_true_r.
    destruct (Z.eqb_spec c x) as [E|_]; [exfalso; exact (Hx E)|].
    rewrite IH by exact Ha. rewrite <- app_assoc. reflexivity.
Qed.

(** X14. Only the last component of a path counts: a directory in front of the
    file name changes nothing in the slug. *)
Theorem slugify_last_component (directory name : pystr) :
  47 ∉ name ->
  slugify (directory ++ py "/" ++ name) = slugify name.
Proof.
  intros Hn. rewrite !slugify_stem. change (py "/") with [47].
  rewrite (rsplit_absent 47 1 name Hn).
  unfold rsplit, split. cbn [rev app].
  rewrite rev_app_distr. cbn [rev app].
  rewrite <- app_assoc. cbn [app].
  rewrite split_from_first
    by (rewrite list_elem_of_In, <- in_rev, <- list_elem_of_In; exact Hn).
  rewrite split_from_budget0. cbn [map rev app last_part List.last].
  rewrite !rev_involutive. reflexivity.
Qed.

Lemma slugify_last_component_witness :
  (47 ∉ py "2024-03-10-my-trip.md")
  /\ slugify (py "content/blog/2024-03-10-my-trip.md") = py "my-trip".
Proof.
  assert (Hn : 47 ∉ py "2024-03-10-my-trip.md").
  { intros Hin. vm_compute in Hin.
    repeat (apply elem_of_cons in Hin as [Hin|Hin]; [discriminate|]).
    inversion Hin. }
  split; [exact Hn|].
  exact (slugify_last_component (py "content/blog") (py "2024-03-10-my-trip.md") Hn).
Defined.

(** * The scrapbook page *)

Section SortedFacts.
Context {A K : Type} (leb : K -> K -> bool) (key : A -> result K).
Hypothesis leb_total : forall a b, leb a b = true \/ leb b a = true.
Hypothesis leb_trans : forall a b c, leb a b = true -> leb b c = true -> leb a c = true.





End SortedFacts.

Section ScrapbookFacts.
Context `{Runtime}.
Import Gate.



(** X20. The guard of the scrapbook.  The page never changes the client state.
    An anonymous client is sent to the login page with the path asked for,
    and an authorised POST back to the page itself, in both cases whatever
    the entries file holds: it is read for an authorised GET only. *)
Theorem scrapbook_guard (fs : filesystem) (content_dir : pystr)
    (req : request) (c : client) :
  (forall c' answer shown,
     scrapbook fs content_dir req c = Ok (c', answer, shown) -> c' = c)
  /\ (state c = Anonymous ->
      scrapbook fs content_dir req c
      = Ok (c, Redirect (UrlFor (py "login") (Some (path req))) 302, []))
  /\ (state c = Authorized -> method req = POST ->
      scrapbook fs content_dir req c
      = Ok (c, Redirect (UrlFor (py "scrapbook") None) 303, [])).
Proof.
  rewrite state_anonymous, state_authorized. unfold scrapbook.
  destruct (authed c); [|split; [intros c' a s [= <- _ _]; reflexivity|split; [reflexivity|discriminate]]].
  split; [|split; [discriminate|intros _ ->; reflexivity]].
  intros c' answer shown. destruct (method req); [|intros [= <- _ _]; reflexivity].
  destruct (load_json _ _ _) as [v|]; [|discriminate]. cbn [mbind result_bind].
  destruct (py_iter v) as [l|]; [|discriminate]. cbn [mbind result_bind].
  destruct (sorted_reverse _ _ l); [|discriminate]. cbn.
  intros [= <- _ _]. reflexivity.
Qed.


End ScrapbookFacts.

(** * Concrete runs *)

Lemma days_between_one_iff_same_day_witness :
  @strptime plain_runtime (py "2024-1-5") = Ok (mkdate 2024 1 5)
  /\ @strptime plain_runtime (py "2024-01-05") = Ok (mkdate 2024 1 5)
  /\ @days_between plain_runtime (py "2024-1-5") (py "2024-01-05") = 1.
Proof.
  split; [reflexivity|]. split; [reflexivity|].
  apply (@days_between_one_iff_same_day plain_runtime (py "2024-1-5") (py "2024-01-05")
           (mkdate 2024 1 5) (mkdate 2024 1 5) eq_refl eq_refl).
  reflexivity.
Defined.

Lemma days_between_compose_witness :
  @strptime plain_runtime (py "2024-01-01") = Ok (mkdate 2024 1 1)
  /\ @strptime plain_runtime (py "2024-01-31") = Ok (mkdate 2024 1 31)
  /\ @strptime plain_runtime (py "2024-03-01") = Ok (mkdate 2024 3 1)
  /\ @days_between plain_runtime (py "2024-01-01") (py "2024-03-01")
     = @days_between plain_runtime (py "2024-01-01") (py "2024-01-31")
       + @days_between plain_runtime (py "2024-01-31") (py "2024-03-01") - 1.
Proof.
  repeat (split; [reflexivity|]).
  exact (@days_between_compose plain_runtime (py "2024-01-01") (py "2024-01-31")
           (py "2024-03-01") (mkdate 2024 1 1) (mkdate 2024 1 31) (mkdate 2024 3 1)
           eq_refl eq_refl eq_refl eq_refl eq_refl).
Defined.



Lemma normalize_stops_stable_witness :
  let stops :=
    [JDict {[ py "id" := JStr (py "a"); py "start_date" := JStr (py "2024-01-05") ]};
     JDict {[ py "id" := JStr (py "b"); py "start_date" := JStr (py "2024-02-01") ]};
     JDict {[ py "id" := JStr (py "c"); py "start_date" := JStr (py "2024-1-5") ]}] in
  let key x := @parse_date_ymd plain_runtime (stop_start_date x) in
  exists normalized out,
    @for_each _ _ (@normalize_stop plain_runtime) stops = Ok normalized
    /\ @normalize_stops plain_runtime stops = Ok out
    /\ map stop_id out = [py "b"; py "a"; py "c"]
    /\ List.filter (same_key date_leb key (mkdate 2024 1 5)) out
       = List.filter (same_key date_leb key (mkdate 2024 1 5)) normalized.
Proof.
  intros stops key. eexists _, _.
  split; [reflexivity|]. split; [reflexivity|]. split; [reflexivity|].
  apply (@normalize_stops_stable plain_runtime stops); reflexivity.
Defined.

Lemma slugify_plain_name_witness :
  (46 ∉ py "2024-03-10-my-trip") /\ (47 ∉ py "2024-03-10-my-trip")
  /\ slugify (py "2024-03-10-my-trip.md") = py "my-trip".
Proof.
  assert (Hn : forall c, (c = 46 \/ c = 47) -> c ∉ py "2024-03-10-my-trip").
  { intros c Hc Hin. vm_compute in Hin.
    repeat (apply elem_of_cons in Hin as [Hin|Hin]; [lia|]).
    inversion Hin. }
  split; [apply Hn; lia|]. split; [apply Hn; lia|].
  apply (slugify_plain_name (py "2024-03-10-my-trip")); apply Hn; lia.
Defined.

Lemma sample_blog_loads (name : pystr) (e : exn) :
  glob_md name = true -> sample_blog !! name <> Some (Raise e).
Proof.
  intros Hg Hd. unfold sample_blog in Hd.
  repeat (rewrite lookup_insert in Hd; case_decide; [discriminate|]).
  rewrite lookup_singleton in Hd. case_decide; [|discriminate].
  subst name. discriminate Hg.
Defined.

Lemma load_blog_posts_listing_witness :
  exists out,
    @load_blog_posts plain_runtime (Some sample_blog) = Ok out
    /\ map bp_title out = [JStr (py "Second"); JStr (py "2024-03-10-first")]
    /\ descending date_leb bp_date_sort out.
Proof.
  destruct (@load_blog_posts_listing plain_runtime sample_blog sample_blog_loads)
    as (out & Hout & _ & Hdesc & _).
  exists out. split; [exact Hout|]. split; [|exact Hdesc].
  pose proof Hout as E. vm_compute in E. injection E as <-. reflexivity.
Defined.

Lemma load_blog_posts_ties_witness :
  exists out,
    @load_blog_posts plain_runtime (Some sample_blog) = Ok out
    /\ map fst (sorted_md_files sample_blog)
       = [py "2024-04-01-plan.md"; py "2024-03-10-second.md"; py "2024-03-10-first.md"]
    /\ List.filter (same_key date_leb bp_date_sort (mkdate 2024 3 10)) out
       = List.filter (same_key date_leb bp_date_sort (mkdate 2024 3 10))
           (@published plain_runtime (sorted_md_files sample_blog)).
Proof.
  eexists. split; [vm_compute; reflexivity|]. split; [vm_compute; reflexivity|].
  apply (@load_blog_posts_ties plain_runtime sample_blog). vm_compute. reflexivity.
Defined.

Lemma blog_post_view_found_witness :
  exists p,
    @blog_post_view plain_runtime (Some sample_blog) (py "second") = Ok (Some p)
    /\ bp_slug p = JStr (py "second")
    /\ @blog_post_view plain_runtime (Some sample_blog) (py "plan") = Ok None.
Proof.
  eexists. split; [vm_compute; reflexivity|]. split; [|vm_compute; reflexivity].
  eapply (@blog_post_view_found plain_runtime (Some sample_blog) (py "second")).
  vm_compute. reflexivity.
Defined.

